(** * Placement and deployment orchestrator of [unified-deployment.py]

    A shallow embedding of [UnifiedOrchestrator] and [main]: the host
    registry, the availability probe, the telemetry collector, the placement
    selector, the per-kind deployment actions and the fleet driver.

    Conventions of the embedding.
    - Every [subprocess.run] call and the dashboard file write consult an
      external [World]; the replies are indexed by a call counter ([clock])
      so that the fleet may answer differently from one call to the next.
    - Python exceptions are an error result; [try ... except Exception] is
      [try_except], which lets [KeyboardInterrupt] through as Python does.
    - The [current_score] attribute that the selector patches onto the
      shared registry objects is a store keyed by host name; it outlives a
      call, as the attribute does.
    - Text is a sequence of code points below 256. A Python float is
      [pyfloat]: a finite binary64 number is given by its exact rational
      value (the sign of zero, which [==] does not see, is not kept), and
      every arithmetic operation rounds to nearest, ties to even, as
      binary64 does ([PyFloat.round_b64]).
    - [logging] output is a list of structured records, one constructor per
      format string of the source. *)

From Stdlib Require Import Ascii String QArith SpecFloat.
From stdpp Require Import base gmap strings list pretty.

Local Open Scope Z_scope.
Local Open Scope string_scope.
Local Open Scope list_scope.

(** ** Python builtins used by the orchestrator *)

Module Py.

(** Whitespace of [str.strip] and [str.split]: TAB..CR, FS..US, the space,
    NEL and the no-break space. *)
Definition isspace (c : ascii) : bool :=
  let n := nat_of_ascii c in
  ((9 <=? n)%nat && (n <=? 13)%nat) || ((28 <=? n)%nat && (n <=? 32)%nat)
  || (n =? 133)%nat || (n =? 160)%nat.

(** Whitespace of the integer parser: TAB..CR and the space. *)
Definition isspace_c (c : ascii) : bool :=
  let n := nat_of_ascii c in
  ((9 <=? n)%nat && (n <=? 13)%nat) || (n =? 32)%nat.

Fixpoint lstrip (s : string) : string :=
  match s with
  | EmptyString => EmptyString
  | String c s' => if isspace c then lstrip s' else s
  end.

(** [s.strip()] *)
Definition strip (s : string) : string :=
  String.rev (lstrip (String.rev (lstrip s))).

(** Truth value of a string: non-empty. *)
Definition truthy (s : string) : bool :=
  match s with EmptyString => false | String _ _ => true end.

(** [s.split(sep)] for a non-empty separator: non-overlapping
    occurrences, left to right. [skip] counts the characters of a matched
    separator still to be dropped, [cur] is the current piece, reversed. *)
Fixpoint split_go (sep : string) (skip : nat) (cur s : string) : list string :=
  match s with
  | EmptyString => [String.rev cur]
  | String c s' =>
      match skip with
      | S k => split_go sep k cur s'
      | O =>
          if String.prefix sep s
          then String.rev cur :: split_go sep (String.length sep - 1) EmptyString s'
          else split_go sep 0 (String c cur) s'
      end
  end.

Definition split (sep s : string) : list string := split_go sep 0 EmptyString s.

Definition digit_val (c : ascii) : option Z :=
  let n := nat_of_ascii c in
  if ((48 <=? n)%nat && (n <=? 57)%nat) then Some (Z.of_nat (n - 48)) else None.

(** Decimal digits with single underscores between digits; [prev] tells
    whether the previous character was a digit. *)
Fixpoint int_digits (prev : bool) (acc : Z) (s : string) : option Z :=
  match s with
  | EmptyString => if prev then Some acc else None
  | String c s' =>
      match digit_val c with
      | Some d => int_digits true (10 * acc + d) s'
      | None =>
          if Ascii.eqb c "_"%char && prev then int_digits false acc s' else None
      end
  end.

Fixpoint lstrip_c (s : string) : string :=
  match s with
  | EmptyString => EmptyString
  | String c s' => if isspace_c c then lstrip_c s' else s
  end.

Definition strip_c (s : string) : string :=
  String.rev (lstrip_c (String.rev (lstrip_c s))).

Fixpoint is_ascii (s : string) : bool :=
  match s with
  | EmptyString => true
  | String c s' => (nat_of_ascii c <? 128)%nat && is_ascii s'
  end.

(** What [int] does to a str that is not pure ASCII before parsing it:
    code points from 127 on become a space when they are whitespace and a
    question mark otherwise (none below 256 is a decimal digit). *)
Fixpoint to_ascii_digits (s : string) : string :=
  match s with
  | EmptyString => EmptyString
  | String c s' =>
      String (if (nat_of_ascii c <? 127)%nat then c
              else if isspace c then " "%char else "?"%char)
             (to_ascii_digits s')
  end.

Fixpoint count_digits (s : string) : nat :=
  match s with
  | EmptyString => O
  | String c s' =>
      match digit_val c with
      | Some _ => S (count_digits s')
      | None => count_digits s'
      end
  end.

(** [sys.get_int_max_str_digits()], at its default. *)
Definition int_max_str_digits : nat := 4300.

(** Sign, then digits, of at most [int_max_str_digits] digits. *)
Definition int_signed (s : string) : option Z :=
  let body (s' : string) :=
    if (int_max_str_digits <? count_digits s')%nat then None
    else int_digits false 0 s' in
  match s with
  | String "-"%char s' => Z.opp <$> body s'
  | String "+"%char s' => body s'
  | s' => body s'
  end.

(** [int(s)] in base 10; [None] stands for [ValueError]. *)
Definition int (s : string) : option Z :=
  int_signed (strip_c (if is_ascii s then s else to_ascii_digits s)).

(** [s.split()]: pieces between runs of whitespace. *)
Fixpoint split_ws_go (cur s : string) : list string :=
  match s with
  | EmptyString => if truthy cur then [String.rev cur] else []
  | String c s' =>
      if isspace c
      then (if truthy cur then String.rev cur :: split_ws_go EmptyString s'
            else split_ws_go EmptyString s')
      else split_ws_go (String c cur) s'
  end.

Definition split_ws (s : string) : list string := split_ws_go EmptyString s.

End Py.

(** ** Exceptions, log records and the orchestrator monad *)

Inductive exn : Set :=
| TimeoutExpired
| CalledProcessError
| OSError
| ValueError
| ZeroDivisionError
| OverflowError
| StopIteration
| KeyboardInterrupt.

(** [isinstance(e, Exception)]: everything but [KeyboardInterrupt], which
    derives from [BaseException] only. *)
Definition is_Exception (e : exn) : bool :=
  match e with KeyboardInterrupt => false | _ => true end.

Inductive result (A : Type) : Type :=
| Ok (a : A)
| Raise (e : exn).
Arguments Ok {A} a.
Arguments Raise {A} e.

(** A Python float: a finite binary64 number by its exact value, an
    infinity, or a NaN. *)
Inductive pyfloat : Type :=
| Finite (q : Q)
| Infinity (negative : bool)
| NaN.

Module PyFloat.

Local Open Scope Z_scope.

(** [floor (log2 (a / b))] for positive [a] and [b]. *)
Definition floor_log2 (a b : Z) : Z :=
  let d := Z.log2 a - Z.log2 b in
  if (if 0 <=? d then b * 2 ^ d <=? a else b <=? a * 2 ^ (- d)) then d else d - 1.

(** The integer nearest to [n / d], ties to even, for [0 <= n] and
    [0 < d]. *)
Definition rne (n d : Z) : Z :=
  let q := n / d in
  let r := n mod d in
  match 2 * r ?= d with
  | Lt => q
  | Gt => q + 1
  | Eq => if Z.even q then q else q + 1
  end.

(** The binary64 number nearest to [a / b], ties to even, for positive
    [a] and [b]: 53 significant bits, exponent of the last bit at least
    -1074; [None] when the rounded value reaches [2 ^ 1024]. *)
Definition round_pos (a b : Z) : option Q :=
  let e := Z.max (floor_log2 a b - 52) (-1074) in
  if 0 <=? e then
    let m := rne a (b * 2 ^ e) in
    if 2 ^ 1024 <=? m * 2 ^ e then None else Some (inject_Z (m * 2 ^ e))
  else
    let m := rne (a * 2 ^ (- e)) b in
    Some (Qred (Qmake m (Z.to_pos (2 ^ (- e))))).

(** Rounding of a rational to binary64; [None] on overflow. *)
Definition round_b64 (q : Q) : option Q :=
  match Qnum q with
  | Z0 => Some 0%Q
  | Zpos a => round_pos (Zpos a) (Zpos (Qden q))
  | Zneg a => Qopp <$> round_pos (Zpos a) (Zpos (Qden q))
  end.

(** The float result of an operation whose exact result is [q]: an
    overflow gives the infinity of the sign of [q]. *)
Definition rounded (q : Q) : pyfloat :=
  match round_b64 q with
  | Some r => Finite r
  | None => Infinity (Qnum q <? 0)
  end.

(** [a / b] on integers: correctly rounded, [ZeroDivisionError] for a zero
    divisor, [OverflowError] when the result is too large for a float. *)
Definition truediv (a b : Z) : result Q :=
  if b =? 0 then Raise ZeroDivisionError
  else
    match round_b64 (Qmake (a * Z.sgn b) (Z.to_pos (Z.abs b))) with
    | Some q => Ok q
    | None => Raise OverflowError
    end.

(** [x - y] on floats. *)
Definition sub (x y : pyfloat) : pyfloat :=
  match x, y with
  | NaN, _ | _, NaN => NaN
  | Finite a, Finite b => rounded (a - b)
  | Infinity s, Finite _ => Infinity s
  | Finite _, Infinity s => Infinity (negb s)
  | Infinity s1, Infinity s2 => if Bool.eqb s1 s2 then NaN else Infinity s1
  end.

(** [x * y] on floats. *)
Definition mul (x y : pyfloat) : pyfloat :=
  match x, y with
  | NaN, _ | _, NaN => NaN
  | Finite a, Finite b => rounded (a * b)
  | Infinity s, Finite b | Finite b, Infinity s =>
      match Qnum b with
      | Z0 => NaN
      | Zpos _ => Infinity s
      | Zneg _ => Infinity (negb s)
      end
  | Infinity s1, Infinity s2 => Infinity (xorb s1 s2)
  end.

(** [x > y] on floats: false as soon as one is a NaN. *)
Definition gt (x y : pyfloat) : bool :=
  match x, y with
  | NaN, _ | _, NaN => false
  | Finite a, Finite b => match (a ?= b)%Q with Gt => true | _ => false end
  | Infinity s, Finite _ => negb s
  | Finite _, Infinity s => s
  | Infinity s1, Infinity s2 => negb s1 && s2
  end.

End PyFloat.

(** The float [sum(l) / n] of a list of floats by an integer. The built-in
    [sum] adds floats with a compensation term in recent interpreters and
    plainly in older ones, so the value is kept as its operands. *)
Record float_mean : Type := {
  summands : list pyfloat;
  divisor : nat
}.

(** One constructor per [logger] call of the source. *)
Inductive log_record : Type :=
| WarnConnectivity (system_name : string) (e : exn)
| WarnResources (system_name : string) (e : exn)
| WarnNoSystems
| InfoSelected (system_name workload_type : string)
| InfoDeploying (system_name system_role : string)
| InfoMacSetup
| WarnMacCommand (cmd : string)
| WarnMacError (e : exn)
| InfoDgxSpark
| ErrorDgxSpark (e : exn)
| InfoHpc (system_name : string)
| ErrorHpc (system_name : string) (e : exn)
| InfoDashboard
| InfoStarting
| InfoMonitoringCreated
| InfoCompleted.

Record SystemConfig : Type := {
  name : string;
  type : string;
  host : string;
  gpu_count : Z;
  vram_total : string;
  role : string;
  priority : Z
}.

#[global] Instance SystemConfig_eq_dec : EqDecision SystemConfig.
Proof. solve_decision. Defined.

(** An entry of the dashboard document. *)
Record DashboardEntry : Type := {
  d_name : string;
  d_host : string;
  d_type : string;
  api_endpoint : string;
  ui_endpoint : string
}.

(** A value stored in [deployment_results]: the boolean of a deployment or
    the dashboard configuration. *)
Inductive result_value : Type :=
| VBool (b : bool)
| VDashboard (systems : list DashboardEntry).

(** What [main] prints. *)
Inductive printed : Type :=
| PDashboard (systems : list DashboardEntry)
| PResults (results : gmap string result_value)
| PBool (b : bool).

(** The commands handed to [subprocess.run]. *)
Inductive command : Type :=
| CmdPing (host : string)
| CmdSshEcho (host : string)
| CmdNvidiaSmi (host : string)
| CmdLocal (argv : list string)
| CmdRsync (dest_host : string)
| CmdSshDeployDgx
| CmdSshDeployHpc (host env : string).

(** Outcome of [subprocess.run]: a completed process with its return code
    and its [stdout] as Python presents it, or an exception (a timeout, a
    missing executable, a decoding error). *)
Inductive run_outcome : Type :=
| Completed (returncode : Z) (out : string)
| Raised (e : exn).

(** The environment: the reply to the [n]-th external call. *)
Record World : Type := {
  run_reply : nat -> command -> run_outcome;
  write_reply : nat -> string -> option exn
}.

(** Mutable state of a run: the external call counter, the [current_score]
    attribute patched onto the registry objects (keyed by their unique name),
    the log, the printed output and the dashboard file. *)
Record state : Type := {
  clock : nat;
  current_score : gmap string pyfloat;
  log : list log_record;
  stdout : list printed;
  dashboard_file : option (list DashboardEntry)
}.

Definition M (A : Type) : Type := state -> result A * state.

Definition ret {A} (a : A) : M A := fun st => (Ok a, st).

Definition raise {A} (e : exn) : M A := fun st => (Raise e, st).

Definition bind {A B} (m : M A) (k : A -> M B) : M B :=
  fun st =>
    match m st with
    | (Ok a, st') => k a st'
    | (Raise e, st') => (Raise e, st')
    end.

Declare Scope py_scope.
Delimit Scope py_scope with py.
Notation "x <- c1 ;; c2" := (bind c1 (fun x => c2))
  (at level 100, c1 at next level, right associativity) : py_scope.
Notation "c1 ;;; c2" := (bind c1 (fun _ => c2))
  (at level 100, right associativity) : py_scope.
Local Open Scope py_scope.

(** [try: body except Exception as e: handler e] *)
Definition try_except {A} (body : M A) (handler : exn -> M A) : M A :=
  fun st =>
    match body st with
    | (Raise e, st') => if is_Exception e then handler e st' else (Raise e, st')
    | r => r
    end.

Definition lift {A} (r : result A) : M A := fun st => (r, st).

Definition tick (st : state) : state :=
  {| clock := S (clock st); current_score := current_score st; log := log st;
     stdout := stdout st; dashboard_file := dashboard_file st |}.

Definition logger (r : log_record) : M unit :=
  fun st =>
    (Ok tt,
     {| clock := clock st; current_score := current_score st; log := log st ++ [r];
        stdout := stdout st; dashboard_file := dashboard_file st |}).

Definition print (p : printed) : M unit :=
  fun st =>
    (Ok tt,
     {| clock := clock st; current_score := current_score st; log := log st;
        stdout := stdout st ++ [p]; dashboard_file := dashboard_file st |}).

(** [system.current_score = q] *)
Definition set_current_score (system : SystemConfig) (q : pyfloat) : M unit :=
  fun st =>
    (Ok tt,
     {| clock := clock st; current_score := <[name system := q]> (current_score st);
        log := log st; stdout := stdout st; dashboard_file := dashboard_file st |}).

(** [getattr(s, 'current_score', 0)] *)
Definition getattr_current_score (st : state) (s : SystemConfig) : pyfloat :=
  default (Finite 0) (current_score st !! name s).

Module PyNum.

(** [a > b] on the keys of [max]. *)
Definition gt (a b : pyfloat) : bool := PyFloat.gt a b.

(** The scan of [max(iterable, key=...)]: the running maximum is replaced
    only by an item whose key is strictly greater. *)
Fixpoint max_from {A} (key : A -> pyfloat) (best : A) (l : list A) : A :=
  match l with
  | [] => best
  | x :: l' => if gt (key x) (key best) then max_from key x l' else max_from key best l'
  end.

(** [max(l, key=key)]; an empty argument raises [ValueError]. *)
Definition max {A} (key : A -> pyfloat) (l : list A) : result A :=
  match l with
  | [] => Raise ValueError
  | x :: l' => Ok (max_from key x l')
  end.

(** [sum] of integers. *)
Definition sumZ (l : list Z) : Z := foldl Z.add 0 l.

End PyNum.

(** ** The host registry *)

Definition mac_studio : SystemConfig :=
  {| name := "mac-studio"; type := "mac"; host := "localhost"; gpu_count := 0;
     vram_total := "0GB"; role := "development_control"; priority := 1 |}.

Definition dgx_spark : SystemConfig :=
  {| name := "dgx-spark"; type := "dgx-spark"; host := "dgx-spark.lab"; gpu_count := 2;
     vram_total := "160GB"; role := "orchestration_gateway"; priority := 2 |}.

Definition hpc_1 : SystemConfig :=
  {| name := "hpc-1"; type := "hpc"; host := "hpc-1.lab"; gpu_count := 2;
     vram_total := "192GB"; role := "primary_inference"; priority := 3 |}.

Definition hpc_2 : SystemConfig :=
  {| name := "hpc-2"; type := "hpc"; host := "hpc-2.lab"; gpu_count := 3;
     vram_total := "96GB"; role := "multi_user_serving"; priority := 4 |}.

Definition hpc_3 : SystemConfig :=
  {| name := "hpc-3"; type := "hpc"; host := "hpc-3.lab"; gpu_count := 1;
     vram_total := "48GB"; role := "development_backup"; priority := 5 |}.

Definition load_system_configs : list SystemConfig :=
  [mac_studio; dgx_spark; hpc_1; hpc_2; hpc_3].

(** [self.systems], set once by [__init__]. *)
Definition systems : list SystemConfig := load_system_configs.

(** [next(s for s in self.systems if p s)] *)
Definition next_system (p : SystemConfig -> bool) : M SystemConfig :=
  match List.find p systems with
  | Some s => ret s
  | None => raise StopIteration
  end.

(** ** Telemetry values *)

Record Gpu : Type := {
  utilization : Z;
  memory_used : Z;
  memory_total : Z;
  memory_percent : pyfloat
}.

(** The three shapes of dictionary [get_system_resources] returns. The
    average utilization is the quotient of two integers, a finite float,
    given by its value. *)
Inductive Resources : Type :=
| MacResources
| GpuResources (gpu_count : nat) (gpus : list Gpu) (avg_utilization : Q)
    (avg_memory_percent : float_mean)
| NotAvailable.

(** [resources.get("available", False)] *)
Definition get_available (r : Resources) : bool :=
  match r with
  | GpuResources _ _ _ _ => true
  | NotAvailable => false
  | MacResources => false
  end.

(** [resources.get("avg_utilization", 100)] *)
Definition get_avg_utilization (r : Resources) : Q :=
  match r with
  | GpuResources _ _ u _ => u
  | _ => 100%Q
  end.

(** [util, mem_used, mem_total = map(int, line.split(', '))] and the
    dictionary built from them. *)
Definition parse_gpu_line (line : string) : result Gpu :=
  match Py.int <$> Py.split ", " line with
  | [Some util; Some mem_used; Some mem_total] =>
      match PyFloat.truediv mem_used mem_total with
      | Raise e => Raise e
      | Ok ratio =>
          Ok {| utilization := util; memory_used := mem_used; memory_total := mem_total;
                memory_percent := PyFloat.mul (Finite ratio) (Finite 100) |}
      end
  | _ => Raise ValueError
  end.

(** The [for line in lines] loop of [get_system_resources]. *)
Fixpoint collect_gpu_data (lines : list string) (gpu_data : list Gpu) : result (list Gpu) :=
  match lines with
  | [] => Ok gpu_data
  | line :: rest =>
      if Py.truthy (Py.strip line) then
        match parse_gpu_line line with
        | Ok gpu => collect_gpu_data rest (gpu_data ++ [gpu])
        | Raise e => Raise e
        end
      else collect_gpu_data rest gpu_data
  end.

(** The dictionary returned on a successful query. *)
Definition resources_of_stdout (out : string) : result Resources :=
  let lines := Py.split (String "010"%char EmptyString) (Py.strip out) in
  match collect_gpu_data lines [] with
  | Raise e => Raise e
  | Ok gpu_data =>
      match PyFloat.truediv (PyNum.sumZ (utilization <$> gpu_data))
                            (Z.of_nat (length gpu_data)) with
      | Raise e => Raise e
      | Ok avg_utilization =>
          Ok (GpuResources (length gpu_data) gpu_data avg_utilization
                {| summands := memory_percent <$> gpu_data; divisor := length gpu_data |})
      end
  end.

(** ** Routing table *)

Definition routing_rules : gmap string (list string) :=
  list_to_map
    [ ("development", ["dgx-spark"; "hpc-3"]);
      ("testing", ["dgx-spark"; "hpc-1"]);
      ("small_inference", ["dgx-spark"; "hpc-3"]);
      ("medium_inference", ["dgx-spark"; "hpc-1"]);
      ("large_inference", ["hpc-1"; "dgx-spark"]);
      ("batch_processing", ["hpc-1"; "hpc-2"]);
      ("multi_user", ["hpc-2"; "dgx-spark"]);
      ("interactive", ["dgx-spark"; "hpc-3"]) ].

(** The [preferred_systems] local of [select_optimal_system]. *)
Definition preferred_systems (model_size : string) : list string :=
  if String.eqb model_size "large" then ["hpc-1"]
  else if String.eqb model_size "medium" then ["dgx-spark"; "hpc-1"]
  else ["dgx-spark"; "hpc-3"].

(** [candidates = routing_rules.get(workload_type, ["dgx-spark"])] *)
Definition candidates (workload_type : string) : list string :=
  default ["dgx-spark"] (routing_rules !! workload_type).

(** Deployment configuration dictionaries built by the driver. *)
Inductive deployment_config : Type :=
| ConfigEmpty
| ConfigWorkload (workload_type system_role : string)
| ConfigWorkloads (workloads : list string).

(** ** The orchestrator, against a fixed environment *)

Section Orchestrator.

Variable W : World.

(** [subprocess.run(cmd, capture_output=True, ...)]: one external call. *)
Definition subprocess_run (cmd : command) : M (Z * string) :=
  fun st =>
    match run_reply W (clock st) cmd with
    | Completed rc out => (Ok (rc, out), tick st)
    | Raised e => (Raise e, tick st)
    end.

(** [subprocess.run(cmd, check=True)] *)
Definition subprocess_run_check (cmd : command) : M (Z * string) :=
  r <- subprocess_run cmd ;;
  if (fst r =? 0)%Z then ret r else raise CalledProcessError.

Definition check_system_availability (system : SystemConfig) : M bool :=
  if String.eqb (type system) "mac" then ret true
  else
    try_except
      (result <- subprocess_run (CmdPing (host system)) ;;
       if negb (fst result =? 0)%Z then ret false
       else
         result <- subprocess_run (CmdSshEcho (host system)) ;;
         ret (fst result =? 0)%Z)
      (fun e => logger (WarnConnectivity (name system) e) ;;; ret false).

(** The [try] block yields [Some d] when it returns [d] and [None] when
    control falls through to the final [return {"available": False}]. *)
Definition get_system_resources (system : SystemConfig) : M Resources :=
  if String.eqb (type system) "mac" then ret MacResources
  else
    returned <-
      try_except
        (result <- subprocess_run (CmdNvidiaSmi (host system)) ;;
         if (fst result =? 0)%Z
         then d <- lift (resources_of_stdout (snd result)) ;; ret (Some d)
         else ret None)
        (fun e => logger (WarnResources (name system) e) ;;; ret None) ;;
    match returned with
    | Some d => ret d
    | None => ret NotAvailable
    end.

(** The [for system_name in candidates] loop of [select_optimal_system]. *)
Fixpoint filter_available (candidates : list string)
    (available_systems : list SystemConfig) : M (list SystemConfig) :=
  match candidates with
  | [] => ret available_systems
  | system_name :: rest =>
      system <- next_system (fun s => String.eqb (name s) system_name) ;;
      available <- check_system_availability system ;;
      if available then
        resources <- get_system_resources system ;;
        if get_available resources then
          let utilization_score := get_avg_utilization resources in
          set_current_score system
            (PyFloat.sub (Finite 100) (Finite utilization_score)) ;;;
          filter_available rest (available_systems ++ [system])
        else filter_available rest available_systems
      else filter_available rest available_systems
  end.

(** [max(available_systems, key=lambda s: getattr(s, 'current_score', 0))] *)
Definition max_by_current_score (available_systems : list SystemConfig) : M SystemConfig :=
  fun st => (PyNum.max (getattr_current_score st) available_systems, st).

Definition select_optimal_system (workload_type model_size : string) : M SystemConfig :=
  let preferred_systems := preferred_systems model_size in
  let candidates := candidates workload_type in
  available_systems <- filter_available candidates [] ;;
  match available_systems with
  | [] =>
      logger WarnNoSystems ;;;
      next_system (fun s => String.eqb (name s) "dgx-spark")
  | _ :: _ =>
      best_system <- max_by_current_score available_systems ;;
      logger (InfoSelected (name best_system) workload_type) ;;;
      ret best_system
  end.

(** The [for cmd in commands] loop of [deploy_mac_control]. *)
Fixpoint run_mac_commands (commands : list string) : M unit :=
  match commands with
  | [] => ret tt
  | cmd :: rest =>
      try_except
        (result <- subprocess_run (CmdLocal (Py.split_ws cmd)) ;;
         if negb (fst result =? 0)%Z then logger (WarnMacCommand cmd) else ret tt)
        (fun e => logger (WarnMacError e)) ;;;
      run_mac_commands rest
  end.

Definition deploy_mac_control (config : deployment_config) : M bool :=
  logger InfoMacSetup ;;;
  let commands :=
    [ "ai-workbench create-project qwen-image-edit";
      "ai-workbench connect dgx-spark";
      "ai-workbench setup-monitoring" ] in
  run_mac_commands commands ;;;
  ret true.

Definition deploy_dgx_spark (config : deployment_config) : M bool :=
  logger InfoDgxSpark ;;;
  try_except
    (subprocess_run_check (CmdRsync "dgx-spark.lab") ;;;
     result <- subprocess_run CmdSshDeployDgx ;;
     ret (fst result =? 0)%Z)
    (fun e => logger (ErrorDgxSpark e) ;;; ret false).

Definition deploy_hpc_system (system : SystemConfig) (config : deployment_config) : M bool :=
  logger (InfoHpc (name system)) ;;;
  try_except
    (subprocess_run_check (CmdRsync (host system)) ;;;
     result <- subprocess_run (CmdSshDeployHpc (host system) (name system)) ;;
     ret (fst result =? 0)%Z)
    (fun e => logger (ErrorHpc (name system) e) ;;; ret false).

Definition deploy_to_system (system : SystemConfig) (deployment_config : deployment_config)
    : M bool :=
  logger (InfoDeploying (name system) (role system)) ;;;
  if String.eqb (type system) "mac" then deploy_mac_control deployment_config
  else if String.eqb (type system) "dgx-spark" then deploy_dgx_spark deployment_config
  else deploy_hpc_system system deployment_config.

(** [enumerate(l, i)] *)
Fixpoint enumerate {A} (l : list A) (i : nat) : list (nat * A) :=
  match l with
  | [] => []
  | x :: l' => (i, x) :: enumerate l' (S i)
  end.

Definition dashboard_entry (p : nat * SystemConfig) : DashboardEntry :=
  let '(i, system) := p in
  {| d_name := name system; d_host := host system; d_type := type system;
     api_endpoint := "http://" +:+ host system +:+ ":800" +:+ pretty i;
     ui_endpoint := "http://" +:+ host system +:+ ":300" +:+ pretty i |}.

(** [with open("dashboard-config.json", "w") as f: json.dump(cfg, f)] *)
Definition write_dashboard (cfg : list DashboardEntry) : M unit :=
  fun st =>
    match write_reply W (clock st) "dashboard-config.json" with
    | Some e => (Raise e, tick st)
    | None =>
        (Ok tt,
         {| clock := S (clock st); current_score := current_score st; log := log st;
            stdout := stdout st; dashboard_file := Some cfg |})
    end.

Definition create_unified_dashboard : M (list DashboardEntry) :=
  logger InfoDashboard ;;;
  let dashboard_config := dashboard_entry <$> enumerate (tail systems) 1 in
  write_dashboard dashboard_config ;;;
  ret dashboard_config.

(** The [for workload in workload_types] loop of the fleet driver. *)
Fixpoint deploy_workloads (workload_types : list string)
    (deployment_results : gmap string result_value) : M (gmap string result_value) :=
  match workload_types with
  | [] => ret deployment_results
  | workload :: rest =>
      optimal_system <- select_optimal_system workload "medium" ;;
      let config := ConfigWorkload workload (role optimal_system) in
      result <- deploy_to_system optimal_system config ;;
      deploy_workloads rest
        (<[workload +:+ "_" +:+ name optimal_system := VBool result]> deployment_results)
  end.

Definition orchestrate_full_deployment (workload_types : list string)
    : M (gmap string result_value) :=
  logger InfoStarting ;;;
  let deployment_results : gmap string result_value := ∅ in
  mac_system <- next_system (fun s => String.eqb (type s) "mac") ;;
  r <- deploy_to_system mac_system ConfigEmpty ;;
  let deployment_results := <["mac" := VBool r]> deployment_results in
  deployment_results <- deploy_workloads workload_types deployment_results ;;
  dashboard_config <- create_unified_dashboard ;;
  ret (<["dashboard" := VDashboard dashboard_config]> deployment_results).

End Orchestrator.

(** ** Command line entry point *)

(** The [choices] of [--target-system]. *)
Inductive target_choice : Set :=
| TargetMac | TargetDgxSpark | TargetHpc1 | TargetHpc2 | TargetHpc3 | TargetAuto.

Definition choice_string (t : target_choice) : string :=
  match t with
  | TargetMac => "mac"
  | TargetDgxSpark => "dgx-spark"
  | TargetHpc1 => "hpc-1"
  | TargetHpc2 => "hpc-2"
  | TargetHpc3 => "hpc-3"
  | TargetAuto => "auto"
  end.

(** The namespace produced by [parser.parse_args()]. *)
Record Args : Type := {
  workloads : list string;
  target_system : target_choice;
  monitor_only : bool
}.

(** Without options. *)
Definition default_args : Args :=
  {| workloads := ["development"; "testing"; "production"];
     target_system := TargetAuto;
     monitor_only := false |}.

(** State at process start: nothing called, no attribute patched. *)
Definition initial_state : state :=
  {| clock := 0; current_score := ∅; log := []; stdout := []; dashboard_file := None |}.

Definition main (W : World) (args : Args) : M unit :=
  if monitor_only args then
    dashboard <- create_unified_dashboard W ;;
    logger InfoMonitoringCreated ;;;
    print (PDashboard dashboard)
  else
    results <-
      (if String.eqb (choice_string (target_system args)) "auto" then
         results <- orchestrate_full_deployment W (workloads args) ;;
         ret (PResults results)
       else
         target <- next_system
                     (fun s => String.eqb (name s) (choice_string (target_system args))) ;;
         results <- deploy_to_system W target (ConfigWorkloads (workloads args)) ;;
         ret (PBool results)) ;;
    logger InfoCompleted ;;;
    print results.

(** Exit status of the interpreter: 0 when [main] returns, 1 when an
    exception escapes it. *)
Definition exit_status (r : result unit * state) : Z :=
  match fst r with
  | Ok _ => 0
  | Raise _ => 1
  end.

Definition run_main (W : World) (args : Args) : result unit * state :=
  main W args initial_state.


(** ** Detection of the current host *)

Module PyText.

(** [str.lower] on one code point below 256: the capital letters A..Z and
    those of U+00C0..U+00DE, the multiplication sign apart. *)
Definition lower_char (c : ascii) : ascii :=
  let n := nat_of_ascii c in
  if ((65 <=? n)%nat && (n <=? 90)%nat)
     || ((192 <=? n)%nat && (n <=? 222)%nat && negb (n =? 215)%nat)
  then ascii_of_nat (n + 32) else c.

Fixpoint lower (s : string) : string :=
  match s with
  | EmptyString => EmptyString
  | String c s' => String (lower_char c) (lower s')
  end.

(** [sub in s] *)
Fixpoint contains (sub s : string) : bool :=
  String.prefix sub s
  || match s with
     | EmptyString => false
     | String _ s' => contains sub s'
     end.

End PyText.

(** What [detect_current_system] observes: the value of
    [platform.system()] and the outcome of opening and reading
    [/proc/version]. *)
Record Platform : Type := {
  platform_system : string;
  proc_version : result string
}.

(** [try: body except: handler]: a bare [except] catches every exception. *)
Definition try_except_bare {A} (body : M A) (handler : M A) : M A :=
  fun st =>
    match body st with
    | (Raise _, st') => handler st'
    | r => r
    end.

(** As in [get_system_resources], the [try] block yields [Some s] when it
    returns [s] and [None] when control falls through. *)
Definition detect_current_system (P : Platform) : M SystemConfig :=
  if String.eqb (platform_system P) "Darwin" then
    next_system (fun s => String.eqb (type s) "mac")
  else
    returned <-
      try_except_bare
        (text <- lift (proc_version P) ;;
         let version_info := PyText.lower text in
         if PyText.contains "dgx" version_info || PyText.contains "spark" version_info
         then s <- next_system (fun s => String.eqb (type s) "dgx-spark") ;; ret (Some s)
         else ret None)
        (ret None) ;;
    match returned with
    | Some s => ret s
    | None => next_system (fun s => String.eqb (type s) "hpc")
    end.
(** * Vocabulary of the properties *)

(** An environment in which no [KeyboardInterrupt] is delivered during an
    external call: whatever [subprocess.run] raises is an [Exception]. *)
Definition uninterrupted (W : World) : Prop :=
  forall n c e, run_reply W n c = Raised e -> is_Exception e = true.

(** The dashboard file can be written. *)
Definition writable (W : World) : Prop :=
  forall n path, write_reply W n path = None.

(** A computation that leaves the [current_score] attributes alone. *)
Definition keeps_scores {A} (m : M A) : Prop :=
  forall st, current_score (snd (m st)) = current_score st.

(** A computation that returns normally from every state. *)
Definition returns {A} (m : M A) : Prop :=
  forall st, exists a st', m st = (Ok a, st').

(** The only exceptions leaving a computation are [Exception]s. *)
Definition raises_only_Exception {A} (m : M A) : Prop :=
  forall st e st', m st = (Raise e, st') -> is_Exception e = true.

(** Outcome of one probe stage: it passes when the command completes with
    status 0. *)
Definition stage_passes (o : run_outcome) : bool :=
  match o with
  | Completed rc _ => (rc =? 0)%Z
  | Raised _ => false
  end.

(** Both stages of the remote probe, as the environment answers them from
    state [st] on. *)
Definition probes_pass (W : World) (system : SystemConfig) (st : state) : bool :=
  stage_passes (run_reply W (clock st) (CmdPing (host system)))
  && stage_passes (run_reply W (S (clock st)) (CmdSshEcho (host system))).

(** A string made of whitespace only: the output of a query that lists no
    accelerator. *)
Fixpoint blank (s : string) : bool :=
  match s with
  | EmptyString => true
  | String c s' => Py.isspace c && blank s'
  end.

(** State after one external call and one logged record. *)
Definition after_call_logging (r : log_record) (st : state) : state :=
  {| clock := S (clock st); current_score := current_score st; log := log st ++ [r];
     stdout := stdout st; dashboard_file := dashboard_file st |}.


(** ** Sample environments *)

(** Every external command times out. *)
Definition W_timeout : World :=
  {| run_reply := fun _ _ => Raised TimeoutExpired; write_reply := fun _ _ => None |}.

(** Every external command completes with status 1 and no output. *)
Definition W_status1 : World :=
  {| run_reply := fun _ _ => Completed 1 EmptyString; write_reply := fun _ _ => None |}.

(** Every external command completes with status 0 and no output: hosts
    answer the probes and the telemetry query lists no accelerator. *)
Definition W_silent : World :=
  {| run_reply := fun _ _ => Completed 0 EmptyString; write_reply := fun _ _ => None |}.

(** ** Vocabulary of the selector *)

(** Order of two scores as the comparison of [max] sees it: [x] strictly
    below [y]; [x] not above [y], for scores that are numbers. *)
Definition float_lt (x y : pyfloat) : Prop := PyNum.gt y x = true.

Definition float_le (x y : pyfloat) : Prop :=
  x <> NaN /\ y <> NaN /\ PyNum.gt x y = false.

(** The routing name has an entry in the registry. *)
Definition registered (n : string) : Prop :=
  is_Some (List.find (fun s => String.eqb (name s) n) systems).

(** The candidates surviving the availability check and the telemetry
    filter in one pass started in state [st], each with the score
    [100 - avg_utilization] computed from the snapshot taken in that pass,
    in candidate order. *)
Fixpoint survey (W : World) (candidates : list string) (st : state)
    : list (SystemConfig * pyfloat) :=
  match candidates with
  | [] => []
  | system_name :: rest =>
      match next_system (fun s => String.eqb (name s) system_name) st with
      | (Ok system, st0) =>
          match check_system_availability W system st0 with
          | (Ok true, st1) =>
              match get_system_resources W system st1 with
              | (Ok resources, st2) =>
                  if get_available resources then
                    let score :=
                      PyFloat.sub (Finite 100) (Finite (get_avg_utilization resources)) in
                    (system, score)
                      :: survey W rest (snd (set_current_score system score st2))
                  else survey W rest st2
              | (Raise _, _) => []
              end
          | (Ok false, st1) => survey W rest st1
          | (Raise _, _) => []
          end
      | (Raise _, _) => []
      end
  end.

(** Hosts answer both probes; the telemetry query of every host lists one
    accelerator at the utilization [util_of host]. *)
Definition W_reporting (util_of : string -> string) : World :=
  {| run_reply := fun _ c =>
       match c with
       | CmdNvidiaSmi h => Completed 0 (util_of h +:+ ", 100, 200")
       | _ => Completed 0 EmptyString
       end;
     write_reply := fun _ _ => None |}.

(** Every host at 50% utilization. *)
Definition W_even : World := W_reporting (fun _ => "50").

(** [hpc-1] at 90% utilization, every other host at 10%. *)
Definition W_loaded : World :=
  W_reporting (fun h => if String.eqb h "hpc-1.lab" then "90" else "10").

(** No host answers the echo request (status 1); every other command,
    deployment included, succeeds. *)
Definition W_no_echo : World :=
  {| run_reply := fun _ c =>
       match c with
       | CmdPing _ => Completed 1 EmptyString
       | CmdNvidiaSmi h => Completed 0 "50, 100, 200"
       | _ => Completed 0 EmptyString
       end;
     write_reply := fun _ _ => None |}.

(** State left by an earlier selection for "interactive" made while every
    host was at 50%. *)
Definition st_selected_before : state :=
  snd (select_optimal_system W_even "interactive" "medium" initial_state).

(** The narrowing by model size that the comment "Combine workload and
    model size preferences" announces, as the specification words it: keep,
    in order, the workload candidates that are also preferred for the model
    size; when none is, keep them all. *)
Definition narrowed_candidates (workload_type model_size : string) : list string :=
  match filter (fun n => n ∈ preferred_systems model_size) (candidates workload_type) with
  | [] => candidates workload_type
  | kept => kept
  end.

(** ** Vocabulary of determinism *)

(** The environments [W1], from its [c1]-th call on, and [W2], from its
    [c2]-th call on, give the same replies. *)
Definition same_replies (W1 W2 : World) (c1 c2 : nat) : Prop :=
  forall k cmd, run_reply W1 (c1 + k) cmd = run_reply W2 (c2 + k) cmd.

(** Two states from which the replies agree and in which the hosts of [P]
    carry the same [current_score]. *)
Definition aligned (W1 W2 : World) (P : list SystemConfig) (s1 s2 : state) : Prop :=
  same_replies W1 W2 (clock s1) (clock s2) /\
  forall s, s ∈ P -> current_score s1 !! name s = current_score s2 !! name s.

(** Two computations that, from related states, give the same result and
    related states. *)
Definition sim {A} (R : state -> state -> Prop) (m1 m2 : M A) : Prop :=
  forall s1 s2, R s1 s2 -> fst (m1 s1) = fst (m2 s2) /\ R (snd (m1 s1)) (snd (m2 s2)).

(** Two outcomes with the same result, related by [post] when it is a
    value. *)
Definition rel_out {A} (post : A -> state -> state -> Prop)
    (r1 r2 : result A * state) : Prop :=
  fst r1 = fst r2 /\ forall a, fst r1 = Ok a -> post a (snd r1) (snd r2).

(** ** Vocabulary of the fleet driver *)

(** The key under which the result for a (workload, host) pair is stored. *)
Definition result_key (workload : string) (system : SystemConfig) : string :=
  workload +:+ "_" +:+ name system.

(** The attempts of a fleet loop started in state [st]: for each requested
    workload, in order, the host the selector resolved and the result of the
    deployment to it. *)
Fixpoint fleet_trace (W : World) (workload_types : list string) (st : state)
    : list (string * SystemConfig * bool) :=
  match workload_types with
  | [] => []
  | workload :: rest =>
      match select_optimal_system W workload "medium" st with
      | (Ok optimal_system, st1) =>
          match deploy_to_system W optimal_system
                  (ConfigWorkload workload (role optimal_system)) st1 with
          | (Ok result, st2) => (workload, optimal_system, result) :: fleet_trace W rest st2
          | (Raise _, _) => []
          end
      | (Raise _, _) => []
      end
  end.

(** Recording one attempt in the result map. *)
Definition record_attempt (results : gmap string result_value)
    (a : string * SystemConfig * bool) : gmap string result_value :=
  <[result_key a.1.1 a.1.2 := VBool a.2]> results.

(** State in which the fleet loop starts: after the local-control setup. *)
Definition after_control_plane (W : World) (st : state) : state :=
  snd (deploy_to_system W mac_studio ConfigEmpty (snd (logger InfoStarting st))).

(** The attempts of [orchestrate_full_deployment] called in state [st]. *)
Definition fleet_attempts (W : World) (workload_types : list string) (st : state)
    : list (string * SystemConfig * bool) :=
  fleet_trace W workload_types (after_control_plane W st).

(** Names of the hosts the selector can return. *)
Definition remote_names : list string := ["dgx-spark"; "hpc-1"; "hpc-2"; "hpc-3"].

Definition last_char (s : string) : option ascii := last (list_ascii_of_string s).

(** Hosts answer the probes at 50% utilization, files are synchronized, and
    every remote deployment command exits with status 1. *)
Definition W_deploy_fails : World :=
  {| run_reply := fun _ c =>
       match c with
       | CmdNvidiaSmi h => Completed 0 "50, 100, 200"
       | CmdSshDeployDgx => Completed 1 EmptyString
       | CmdSshDeployHpc _ _ => Completed 1 EmptyString
       | _ => Completed 0 EmptyString
       end;
     write_reply := fun _ _ => None |}.

(** [--workloads testing] *)
Definition args_testing : Args :=
  {| workloads := ["testing"]; target_system := TargetAuto; monitor_only := false |}.

(** ** Vocabulary of the telemetry properties *)

(** The lines [get_system_resources] iterates over. *)
Definition lines_of (out : string) : list string :=
  Py.split (String "010"%char EmptyString) (Py.strip out).

(** A line the loop does not skip. *)
Definition nonblank (line : string) : bool := Py.truthy (Py.strip line).

(** The score the selector derives from a snapshot. *)
Definition score_of (r : Resources) : pyfloat :=
  PyFloat.sub (Finite 100) (Finite (get_avg_utilization r)).

(** Hosts answer the probes; the telemetry query prints one well-formed
    line and one line with two fields only. *)
Definition W_garbled : World :=
  {| run_reply := fun _ c =>
       match c with
       | CmdNvidiaSmi h =>
           Completed 0 ("50, 100, 200" +:+ String "010"%char EmptyString +:+ "70, 100")
       | _ => Completed 0 EmptyString
       end;
     write_reply := fun _ _ => None |}.

(** The per-accelerator list of a snapshot (empty when none is reported). *)
Definition get_gpus (r : Resources) : list Gpu :=
  match r with
  | GpuResources _ gpus _ _ => gpus
  | _ => []
  end.

(** A utilization percentage as [nvidia-smi] reports it. *)
Definition percentage (z : Z) : Prop := (0 <= z <= 100)%Z.

(** ** Vocabulary of the deployment properties *)

(** The file synchronization issued for a remote host: the gateway action
    names its destination literally, the compute-node action uses the
    host's address. *)
Definition sync_command (system : SystemConfig) : command :=
  if String.eqb (type system) "dgx-spark" then CmdRsync "dgx-spark.lab"
  else CmdRsync (host system).

(** The remote deployment command issued after the synchronization. *)
Definition remote_command (system : SystemConfig) : command :=
  if String.eqb (type system) "dgx-spark" then CmdSshDeployDgx
  else CmdSshDeployHpc (host system) (name system).

(** ** Vocabulary of the further selector properties *)

(** Patching the score of one surveyed host onto the attribute store. *)
Definition patch_score (scores : gmap string pyfloat) (p : SystemConfig * pyfloat)
    : gmap string pyfloat :=
  <[name p.1 := p.2]> scores.

(** ** Vocabulary of the further driver properties *)

(** The dashboard file can never be written: every attempt raises [e]. *)
Definition unwritable (W : World) (e : exn) : Prop :=
  forall n, write_reply W n "dashboard-config.json" = Some e.

(** As [W_even], on a file system that refuses every write. *)
Definition W_read_only : World :=
  {| run_reply := run_reply W_even; write_reply := fun _ _ => Some OSError |}.

(** Hosts answer the probes at 50% utilization and synchronization
    succeeds; the remote deployment command of the gateway fails when it is
    among the first eleven external calls (the first deployment of a fleet
    run) and succeeds afterwards. *)
Definition W_recovering : World :=
  {| run_reply := fun n c =>
       match c with
       | CmdNvidiaSmi h => Completed 0 "50, 100, 200"
       | CmdSshDeployDgx => Completed (if (n <? 11)%nat then 1 else 0) EmptyString
       | _ => Completed 0 EmptyString
       end;
     write_reply := fun _ _ => None |}.

(** [--target-system dgx-spark --workloads testing] *)
Definition args_dgx_spark : Args :=
  {| workloads := ["testing"]; target_system := TargetDgxSpark; monitor_only := false |}.

(** [--monitor-only] *)
Definition args_monitor : Args :=
  {| workloads := ["development"; "testing"; "production"];
     target_system := TargetAuto; monitor_only := true |}.

(** Whether a readable [/proc/version] mentions the gateway, in any
    letter case. *)
Definition mentions_gateway (P : Platform) : bool :=
  match proc_version P with
  | Ok text =>
      PyText.contains "dgx" (PyText.lower text) || PyText.contains "spark" (PyText.lower text)
  | Raise _ => false
  end.

(** A Linux host whose kernel banner names the gateway in capitals. *)
Definition P_gateway : Platform :=
  {| platform_system := "Linux";
     proc_version := Ok "Linux version 6.8.0 (NVIDIA DGX OS) #1 SMP" |}.

(** The snapshot of a host that lists one accelerator at 50% utilization
    with 100 of 200 MiB in use. *)
Definition snapshot_half : Resources :=
  GpuResources 1
    [{| utilization := 50; memory_used := 100; memory_total := 200;
        memory_percent := Finite (50 # 1) |}]
    (50 # 1)
    {| summands := [Finite (50 # 1)]; divisor := 1 |}.

(** ** Cross-check of the float arithmetic *)

Module Binary64.

(** A number of the Standard Library's IEEE 754 specification, at the
    binary64 format, as a [pyfloat]. *)
Definition to_pyfloat (f : spec_float) : pyfloat :=
  match f with
  | S754_zero _ => Finite 0
  | S754_infinity s => Infinity s
  | S754_nan => NaN
  | S754_finite s m e =>
      let v := if (0 <=? e)%Z then inject_Z (Zpos m * 2 ^ e)
               else Qred (Qmake (Zpos m) (Z.to_pos (2 ^ (- e)))) in
      Finite (if s then Qopp v else v)
  end.

(** The quotient of two positive integers as the library divides and
    rounds it. *)
Definition div (a b : Z) : spec_float :=
  let '(m, e, l) := SFdiv_core_binary 53 1024 a 0 b 0 in
  binary_round_aux 53 1024 false m e l.

Definition hundred : spec_float := S754_finite false 100 0.

Definition same (x y : pyfloat) : bool :=
  match x, y with
  | Finite a, Finite b => Qeq_bool a b
  | Infinity s1, Infinity s2 => Bool.eqb s1 s2
  | NaN, NaN => true
  | _, _ => false
  end.

(** [a / b], [100 - a / b] and [(a / b) * 100] computed by [PyFloat] and by
    the library agree. *)
Definition agree (p : Z * Z) : bool :=
  let x := PyFloat.rounded (Qmake p.1 (Z.to_pos p.2)) in
  let f := div p.1 p.2 in
  same x (to_pyfloat f)
  && same (PyFloat.sub (Finite 100) x) (to_pyfloat (SFsub 53 1024 hundred f))
  && same (PyFloat.mul x (Finite 100)) (to_pyfloat (SFmul 53 1024 f hundred)).

(** Quotients that are exact, inexact, ties, subnormal, near the largest
    float and beyond it. *)
Definition samples : list (Z * Z) :=
  [ (100, 3); (1, 3); (2, 3); (50, 1); (200, 3); (1, 10); (7, 10); (1, 7); (22, 7);
    (355, 113); (1, 1); (100, 1); (99, 2); (299, 3); (301, 3);
    (2 ^ 53, 1); (2 ^ 53 + 1, 1); (2 ^ 53 + 2, 1); (2 ^ 53 + 3, 1);
    (2 ^ 54 + 2, 1); (2 ^ 54 + 6, 1); (2 ^ 52 + 1, 2); (2 ^ 52 + 3, 2); (2 ^ 53 - 1, 2);
    (2 ^ 53 - 1, 2 ^ 53); (99999999999999999, 100000000000000000);
    (123456789123456789, 1000); (6004799503160661, 2 ^ 54 * 5);
    (1, 2 ^ 1074); (1, 2 ^ 1075); (3, 2 ^ 1075); (1, 2 ^ 1076); (3, 2 ^ 1076);
    (5, 2 ^ 1076); (2 ^ 1022 * 3, 2 ^ 2096); (4503599627370497, 2 ^ 1126);
    (2 ^ 1023, 1); (2 ^ 1024 - 2 ^ 970 - 1, 1); (2 ^ 1024 - 2 ^ 970, 1); (2 ^ 1024, 1);
    (2 ^ 1024 - 2 ^ 971, 100); (2 ^ 1017, 1); (2 ^ 1018, 1);
    (10 ^ 400, 10 ^ 100); (10 ^ 100, 10 ^ 400); (2 ^ 2000 + 1, 2 ^ 977);
    (2 ^ 2000, 2 ^ 976); (10 ^ 400, 1) ]%Z.

End Binary64.

(** ** Environments at the edges of the arithmetic *)

(** [hpc-1] reports a utilization of [2 ^ 53 + 1], every other host of
    [2 ^ 53]: the two averages round to the same float. *)
Definition W_rounding_tie : World :=
  W_reporting (fun h => if String.eqb h "hpc-1.lab" then "9007199254740993"
                        else "9007199254740992").

(** The utilization field of [hpc-1] ends in a unit separator (code point
    31), which [str.strip] removes and [int] does not accept; every other
    host is at 50%. *)
Definition W_unit_separator : World :=
  W_reporting (fun h => if String.eqb h "hpc-1.lab"
                        then "10" +:+ String "031"%char EmptyString else "50").

(** [1] followed by four hundred zeros. *)
Definition ten_pow_400 : string := "1" +:+ string_of_list_ascii (repeat "0"%char 400).

(** Every host reports a utilization of [10 ^ 400], too large for a float. *)
Definition W_too_large : World := W_reporting (fun _ => ten_pow_400).

(** Every host lists three accelerators, at 100%, 0% and 0%. *)
Definition W_thirds : World :=
  {| run_reply := fun _ c =>
       match c with
       | CmdNvidiaSmi h =>
           Completed 0 ("100, 100, 200" +:+ String "010"%char EmptyString
                        +:+ "0, 100, 200" +:+ String "010"%char EmptyString
                        +:+ "0, 100, 200" +:+ String "010"%char EmptyString)
       | _ => Completed 0 EmptyString
       end;
     write_reply := fun _ _ => None |}.

(** * Properties *)

Create HintDb orch.

Section Framing.

Context {A B : Type}.

Lemma keeps_scores_ret (a : A) : keeps_scores (ret a).
Proof. intros st. reflexivity. Qed.

Lemma keeps_scores_raise (e : exn) : keeps_scores (@raise A e).
Proof. intros st. reflexivity. Qed.

Lemma keeps_scores_bind (m : M A) (k : A -> M B) :
  keeps_scores m -> (forall a, keeps_scores (k a)) -> keeps_scores (bind m k).
Proof.
  intros Hm Hk st. unfold bind. specialize (Hm st).
  destruct (m st) as [[a | e] st']; simpl in *; [| exact Hm].
  rewrite Hk. exact Hm.
Qed.

Lemma keeps_scores_try (m : M A) (h : exn -> M A) :
  keeps_scores m -> (forall e, keeps_scores (h e)) -> keeps_scores (try_except m h).
Proof.
  intros Hm Hh st. unfold try_except. specialize (Hm st).
  destruct (m st) as [[a | e] st']; simpl in *; [exact Hm |].
  destruct (is_Exception e); simpl; [| exact Hm].
  rewrite Hh. exact Hm.
Qed.

Lemma returns_ret (a : A) : returns (ret a).
Proof. intros st. eexists _, _. reflexivity. Qed.

Lemma returns_bind (m : M A) (k : A -> M B) :
  returns m -> (forall a, returns (k a)) -> returns (bind m k).
Proof.
  intros Hm Hk st. unfold bind.
  destruct (Hm st) as (a & st' & ->). apply Hk.
Qed.

End Framing.

Lemma keeps_scores_logger r : keeps_scores (logger r).
Proof. intros st. reflexivity. Qed.

Lemma returns_logger r : returns (logger r).
Proof. intros st. eexists _, _. reflexivity. Qed.

Lemma keeps_scores_lift {A} (r : result A) : keeps_scores (lift r).
Proof. intros st. reflexivity. Qed.

Lemma keeps_scores_subprocess_run W cmd : keeps_scores (subprocess_run W cmd).
Proof. intros st. unfold subprocess_run. destruct (run_reply W (clock st) cmd); reflexivity. Qed.

#[local] Hint Resolve keeps_scores_ret keeps_scores_raise keeps_scores_logger
  keeps_scores_lift keeps_scores_subprocess_run returns_ret returns_logger : orch.

(** A [try] block whose body can only raise an [Exception] and whose
    handler returns, returns. *)
Lemma returns_try {A} (m : M A) (h : exn -> M A) :
  (forall st e st', m st = (Raise e, st') -> is_Exception e = true) ->
  (forall e, returns (h e)) -> returns (try_except m h).
Proof.
  intros Hm Hh st. unfold try_except.
  destruct (m st) as [[a | e] st'] eqn:E.
  - eexists _, _. reflexivity.
  - rewrite (Hm _ _ _ E). apply Hh.
Qed.

Lemma roe_ret {A} (a : A) : raises_only_Exception (ret a).
Proof. intros st e st' H. discriminate H. Qed.

Lemma roe_logger r : raises_only_Exception (logger r).
Proof. intros st e st' H. discriminate H. Qed.

Lemma roe_raise {A} e : is_Exception e = true -> raises_only_Exception (@raise A e).
Proof. intros He st e' st' H. injection H as <- _. exact He. Qed.

Lemma roe_bind {A B} (m : M A) (k : A -> M B) :
  raises_only_Exception m -> (forall a, raises_only_Exception (k a)) ->
  raises_only_Exception (bind m k).
Proof.
  intros Hm Hk st e st' H. unfold bind in H.
  destruct (m st) as [[a | e0] st0] eqn:E.
  - exact (Hk _ _ _ _ H).
  - injection H as <- <-. exact (Hm _ _ _ E).
Qed.

Lemma roe_subprocess_run W cmd :
  uninterrupted W -> raises_only_Exception (subprocess_run W cmd).
Proof.
  intros HW st e st' H. unfold subprocess_run in H.
  destruct (run_reply W (clock st) cmd) eqn:E; [discriminate H |].
  injection H as <- _. exact (HW _ _ _ E).
Qed.

Lemma roe_subprocess_run_check W cmd :
  uninterrupted W -> raises_only_Exception (subprocess_run_check W cmd).
Proof.
  intros HW. unfold subprocess_run_check. apply roe_bind.
  - apply roe_subprocess_run, HW.
  - intros r. destruct (fst r =? 0)%Z; [apply roe_ret | apply roe_raise; reflexivity].
Qed.

Lemma roe_lift {A} (r : result A) :
  (forall e, r = Raise e -> is_Exception e = true) -> raises_only_Exception (lift r).
Proof. intros Hr st e st' H. injection H as H _. exact (Hr _ H). Qed.

#[local] Hint Resolve roe_ret roe_logger roe_subprocess_run roe_subprocess_run_check : orch.

(** ** Availability probe *)

Lemma check_system_availability_keeps W system :
  keeps_scores (check_system_availability W system).
Proof.
  unfold check_system_availability.
  destruct (String.eqb (type system) "mac"); [apply keeps_scores_ret |].
  apply keeps_scores_try.
  - apply keeps_scores_bind; [auto with orch |].
    intros r. destruct (negb (fst r =? 0)%Z); [auto with orch |].
    apply keeps_scores_bind; auto with orch.
  - intros e. apply keeps_scores_bind; auto with orch.
Qed.

Lemma check_system_availability_returns W system :
  uninterrupted W -> returns (check_system_availability W system).
Proof.
  intros HW. unfold check_system_availability.
  destruct (String.eqb (type system) "mac"); [apply returns_ret |].
  apply returns_try.
  - apply roe_bind; [auto with orch |].
    intros r. destruct (negb (fst r =? 0)%Z); [auto with orch |].
    apply roe_bind; auto with orch.
  - intros e. apply returns_bind; auto with orch.
Qed.

(** ** Telemetry collector *)

Lemma truediv_raises a b e : PyFloat.truediv a b = Raise e -> is_Exception e = true.
Proof.
  unfold PyFloat.truediv. destruct (a * Z.sgn b) as [| p | p]; destruct (b =? 0)%Z;
    try (intros H; injection H as <-; reflexivity);
    destruct (PyFloat.round_b64 _); intros H;
    solve [discriminate H | injection H as <-; reflexivity].
Qed.

Lemma parse_gpu_line_raises line e :
  parse_gpu_line line = Raise e -> is_Exception e = true.
Proof.
  unfold parse_gpu_line. intros H.
  destruct (Py.int <$> Py.split ", " line) as [| [u |] [| [m |] [| [t |] [| x l]]]];
    try (injection H as <-; reflexivity).
  destruct (PyFloat.truediv m t) as [ratio | e0] eqn:E; [discriminate H |].
  injection H as <-. exact (truediv_raises _ _ _ E).
Qed.

Lemma collect_gpu_data_raises lines : forall gpu_data e,
  collect_gpu_data lines gpu_data = Raise e -> is_Exception e = true.
Proof.
  induction lines as [| line rest IH]; intros gpu_data e H; simpl in H.
  - discriminate H.
  - destruct (Py.truthy (Py.strip line)); [| exact (IH _ _ H)].
    destruct (parse_gpu_line line) eqn:E.
    + exact (IH _ _ H).
    + injection H as <-. exact (parse_gpu_line_raises _ _ E).
Qed.

Lemma resources_of_stdout_raises out e :
  resources_of_stdout out = Raise e -> is_Exception e = true.
Proof.
  unfold resources_of_stdout. intros H.
  destruct (collect_gpu_data _ _) as [gpu_data | e0] eqn:E.
  - destruct (PyFloat.truediv _ _) as [u | e1] eqn:E1; [discriminate H |].
    injection H as <-. exact (truediv_raises _ _ _ E1).
  - injection H as <-. exact (collect_gpu_data_raises _ _ _ E).
Qed.

Lemma get_system_resources_keeps W system :
  keeps_scores (get_system_resources W system).
Proof.
  unfold get_system_resources.
  destruct (String.eqb (type system) "mac"); [apply keeps_scores_ret |].
  apply keeps_scores_bind.
  - apply keeps_scores_try.
    + apply keeps_scores_bind; [auto with orch |].
      intros r. destruct (fst r =? 0)%Z; [| auto with orch].
      apply keeps_scores_bind; auto with orch.
    + intros e. apply keeps_scores_bind; auto with orch.
  - intros [d |]; auto with orch.
Qed.

Lemma get_system_resources_returns W system :
  uninterrupted W -> returns (get_system_resources W system).
Proof.
  intros HW. unfold get_system_resources.
  destruct (String.eqb (type system) "mac"); [apply returns_ret |].
  apply returns_bind.
  - apply returns_try.
    + apply roe_bind; [auto with orch |].
      intros r. destruct (fst r =? 0)%Z; [| auto with orch].
      apply roe_bind; [| auto with orch].
      apply roe_lift, resources_of_stdout_raises.
    + intros e. apply returns_bind; auto with orch.
  - intros [d |]; auto with orch.
Qed.

Lemma lstrip_blank s : blank s = true -> Py.lstrip s = EmptyString.
Proof.
  induction s as [| c s IH]; simpl; [reflexivity |].
  intros H. apply andb_prop in H as [Hc Hs]. rewrite Hc. exact (IH Hs).
Qed.

Lemma strip_blank s : blank s = true -> Py.strip s = EmptyString.
Proof. intros H. unfold Py.strip. rewrite (lstrip_blank _ H). reflexivity. Qed.

Lemma resources_of_blank_stdout out :
  blank out = true -> resources_of_stdout out = Raise ZeroDivisionError.
Proof. intros H. unfold resources_of_stdout. rewrite (strip_blank _ H). reflexivity. Qed.

(** C8 -- The availability check is total and advisory: for the
    local-control host (type "mac") it returns [True] without any external
    call (the state, call counter included, is unchanged); for every other
    host it returns a boolean, never an exception, and the boolean is [True]
    only when both probe stages complete with status 0: a stage that raises
    (transport error, timeout) or exits non-zero yields [False]. *)
Theorem check_system_availability_advisory W system st :
  (type system = "mac" -> check_system_availability W system st = (Ok true, st)) /\
  (type system <> "mac" -> uninterrupted W ->
   fst (check_system_availability W system st) = Ok (probes_pass W system st)).
Proof.
  unfold check_system_availability. split.
  - intros ->. reflexivity.
  - intros Hty HW. apply String.eqb_neq in Hty. rewrite Hty.
    unfold probes_pass, try_except, bind, subprocess_run.
    destruct (run_reply W (clock st) (CmdPing (host system))) as [rc out | e] eqn:Eping;
      simpl.
    + destruct (rc =? 0)%Z; simpl; [| reflexivity].
      destruct (run_reply W (S (clock st)) (CmdSshEcho (host system)))
        as [rc' out' | e'] eqn:Essh; simpl; [reflexivity |].
      rewrite (HW _ _ _ Essh). reflexivity.
    + rewrite (HW _ _ _ Eping). reflexivity.
Qed.

Lemma uninterrupted_W_timeout : uninterrupted W_timeout.
Proof. intros n c e H. injection H as <-. reflexivity. Qed.

Lemma uninterrupted_W_status1 : uninterrupted W_status1.
Proof. intros n c e H. discriminate H. Qed.

Lemma uninterrupted_W_silent : uninterrupted W_silent.
Proof. intros n c e H. discriminate H. Qed.

Lemma check_system_availability_advisory_witness :
  check_system_availability W_timeout mac_studio initial_state = (Ok true, initial_state)
  /\ fst (check_system_availability W_timeout hpc_1 initial_state) = Ok false.
Proof.
  split.
  - apply (proj1 (check_system_availability_advisory W_timeout mac_studio initial_state)).
    reflexivity.
  - apply (proj2 (check_system_availability_advisory W_timeout hpc_1 initial_state)).
    + discriminate.
    + exact uninterrupted_W_timeout.
Defined.

(** C4 -- For every remote host whose telemetry query succeeds (status 0)
    with an output that lists no accelerator (whitespace only),
    [get_system_resources] does divide by zero, when it averages over the
    empty list, but the [ZeroDivisionError] does not leave the function: it
    is caught and logged as a warning, and the snapshot returned is
    [{"available": False}], with no per-accelerator data. *)
Theorem get_system_resources_no_accelerators W system st out :
  type system <> "mac" ->
  run_reply W (clock st) (CmdNvidiaSmi (host system)) = Completed 0 out ->
  blank out = true ->
  get_system_resources W system st =
    (Ok NotAvailable, after_call_logging (WarnResources (name system) ZeroDivisionError) st).
Proof.
  intros Hty Hrun Hblank. apply String.eqb_neq in Hty.
  unfold get_system_resources. rewrite Hty.
  unfold try_except, bind, subprocess_run, lift. rewrite Hrun. simpl.
  rewrite (resources_of_blank_stdout _ Hblank). reflexivity.
Qed.

Lemma get_system_resources_no_accelerators_witness :
  get_system_resources W_silent hpc_2 initial_state =
    (Ok NotAvailable,
     after_call_logging (WarnResources "hpc-2" ZeroDivisionError) initial_state).
Proof.
  apply (get_system_resources_no_accelerators W_silent hpc_2 initial_state EmptyString).
  - discriminate.
  - reflexivity.
  - reflexivity.
Defined.

(** The average over the empty list of accelerators is a division by
    zero: it raises in the telemetry computation, and the warning logged by
    [get_system_resources] names it. *)
Lemma get_system_resources_divides_by_zero :
  collect_gpu_data (lines_of EmptyString) [] = Ok []
  /\ PyFloat.truediv (PyNum.sumZ (utilization <$> [])) (Z.of_nat (length (@nil Gpu)))
     = Raise ZeroDivisionError
  /\ resources_of_stdout EmptyString = Raise ZeroDivisionError
  /\ log (snd (get_system_resources W_silent hpc_2 initial_state))
     = [WarnResources "hpc-2" ZeroDivisionError].
Proof. repeat split; vm_compute; reflexivity. Qed.

(** ** Deployment actions *)

Lemma run_mac_commands_returns W commands :
  uninterrupted W -> returns (run_mac_commands W commands).
Proof.
  intros HW. induction commands as [| cmd rest IH]; simpl; [apply returns_ret |].
  apply returns_bind; [| intros _; exact IH].
  apply returns_try; [| intros e; apply returns_logger].
  apply roe_bind; [auto with orch |].
  intros r. destruct (negb (fst r =? 0)%Z); auto with orch.
Qed.

Lemma bind_Ok {A B} (m : M A) (k : A -> M B) st a st' :
  m st = (Ok a, st') -> bind m k st = k a st'.
Proof. unfold bind. intros ->. reflexivity. Qed.

Lemma bind_Raise {A B} (m : M A) (k : A -> M B) st e st' :
  m st = (Raise e, st') -> bind m k st = (Raise e, st').
Proof. unfold bind. intros ->. reflexivity. Qed.

Lemma deploy_mac_control_true W config st :
  uninterrupted W -> exists st', deploy_mac_control W config st = (Ok true, st').
Proof.
  intros HW. unfold deploy_mac_control. cbv zeta.
  erewrite bind_Ok by reflexivity.
  match goal with
  | |- context [bind (run_mac_commands W ?cmds) _ ?st1] =>
      destruct (run_mac_commands_returns W cmds HW st1) as ([] & st' & E)
  end.
  erewrite bind_Ok by exact E. eexists. reflexivity.
Qed.

Lemma deploy_to_system_mac_true W system config st :
  uninterrupted W -> type system = "mac" ->
  exists st', deploy_to_system W system config st = (Ok true, st').
Proof.
  intros HW Hty. unfold deploy_to_system.
  erewrite bind_Ok by reflexivity. rewrite Hty. simpl.
  apply deploy_mac_control_true, HW.
Qed.


(** ** Routing table *)

Lemma candidates_cases workload_type :
  candidates workload_type ∈
    [ ["dgx-spark"; "hpc-3"]; ["dgx-spark"; "hpc-1"]; ["hpc-1"; "dgx-spark"];
      ["hpc-1"; "hpc-2"]; ["hpc-2"; "dgx-spark"]; ["dgx-spark"] ].
Proof.
  unfold candidates. destruct (routing_rules !! workload_type) as [l |] eqn:E; simpl.
  - apply elem_of_list_to_map_2 in E.
    repeat (apply elem_of_cons in E as [E | E]; [simplify_eq; compute_done |]).
    apply elem_of_nil in E. destruct E.
  - compute_done.
Qed.

Lemma registered_names :
  Forall registered ["dgx-spark"; "hpc-1"; "hpc-2"; "hpc-3"].
Proof. repeat constructor; eexists; reflexivity. Qed.

Lemma candidates_remote workload_type :
  Forall (fun n => n ∈ ["dgx-spark"; "hpc-1"; "hpc-2"; "hpc-3"]) (candidates workload_type).
Proof.
  pose proof (candidates_cases workload_type) as H.
  repeat (apply elem_of_cons in H as [-> | H]; [compute_done |]).
  apply elem_of_nil in H. destruct H.
Qed.

Lemma candidates_registered workload_type : Forall registered (candidates workload_type).
Proof.
  eapply Forall_impl; [apply candidates_remote |].
  intros n Hn. simpl in Hn.
  exact (proj1 (Forall_forall _ _) registered_names n Hn).
Qed.

Lemma candidates_NoDup workload_type : NoDup (candidates workload_type).
Proof.
  pose proof (candidates_cases workload_type) as H.
  repeat (apply elem_of_cons in H as [-> | H]; [compute_done |]).
  apply elem_of_nil in H. destruct H.
Qed.

(** ** The scan of [max] *)

Lemma qgt_true a b : match (a ?= b)%Q with Gt => true | _ => false end = true <-> (b < a)%Q.
Proof.
  rewrite (Qgt_alt a b). destruct (a ?= b)%Q; split; intros H; congruence.
Qed.

Lemma qgt_false a b : match (a ?= b)%Q with Gt => true | _ => false end = false <-> (a <= b)%Q.
Proof.
  rewrite (Qle_alt a b). destruct (a ?= b)%Q; split; intros H; congruence.
Qed.

Ltac float_cases :=
  unfold PyNum.gt in *;
  repeat match goal with
         | x : pyfloat |- _ => destruct x as [? | [|] |]
         end;
  simpl in *; try congruence.

(** The comparison of floats that are numbers is a strict order with its
    weak companion. *)
Lemma gt_lt_le x y z :
  PyNum.gt y x = true -> PyNum.gt y z = false -> PyNum.gt x z = false.
Proof.
  float_cases. intros Hxy Hyz. apply qgt_true in Hxy. apply qgt_false in Hyz.
  apply qgt_false, Qlt_le_weak. eapply Qlt_le_trans; eassumption.
Qed.

Lemma gt_lt_le_lt x y z :
  PyNum.gt y x = true -> PyNum.gt y z = false -> z <> NaN -> PyNum.gt z x = true.
Proof.
  float_cases. intros Hxy Hyz _. apply qgt_true in Hxy. apply qgt_false in Hyz.
  apply qgt_true. eapply Qlt_le_trans; eassumption.
Qed.

Lemma gt_le_lt_lt x y z :
  PyNum.gt x y = false -> PyNum.gt z y = true -> x <> NaN -> PyNum.gt z x = true.
Proof.
  float_cases. intros Hxy Hyz _. apply qgt_false in Hxy. apply qgt_true in Hyz.
  apply qgt_true. eapply Qle_lt_trans; eassumption.
Qed.

Lemma gt_asym x y : PyNum.gt y x = true -> PyNum.gt x y = false.
Proof.
  float_cases. intros H. apply qgt_true in H. apply qgt_false, Qlt_le_weak, H.
Qed.

Lemma gt_irrefl x : PyNum.gt x x = false.
Proof. float_cases. apply qgt_false, Qle_refl. Qed.

(** ** Rounding to binary64 *)

Section Rounding.

Local Open Scope Z_scope.

(** [rne n d] is an integer nearest to [n / d], and the even one of the two
    when [n / d] lies halfway between them. *)
Lemma rne_nearest n d :
  0 <= n -> 0 < d ->
  Z.abs (2 * (PyFloat.rne n d * d - n)) <= d /\
  (Z.abs (2 * (PyFloat.rne n d * d - n)) = d -> Z.even (PyFloat.rne n d) = true).
Proof.
  intros Hn Hd. unfold PyFloat.rne.
  pose proof (Z.div_mod n d ltac:(lia)) as Hdm.
  pose proof (Z.mod_pos_bound n d Hd) as Hr.
  set (q := n / d) in *. set (r := n mod d) in *.
  assert (E0 : q * d - n = - r) by lia.
  assert (E1 : (q + 1) * d - n = d - r) by (rewrite Z.mul_add_distr_r; lia).
  destruct (2 * r ?= d) eqn:Hc.
  - apply Z.compare_eq in Hc. destruct (Z.even q) eqn:Hq.
    + rewrite E0. split; [lia | intros _; exact Hq].
    + rewrite E1. split; [lia |]. intros _. rewrite Z.even_add, Hq. reflexivity.
  - change (2 * r < d) in Hc. rewrite E0. split; [lia | intros H; exfalso; lia].
  - apply Z.compare_gt_iff in Hc. rewrite E1. split; [lia | intros H; exfalso; lia].
Qed.

(** [2 ^ k <= a / b < 2 ^ (k + 1)] for [k] the result of [floor_log2],
    written without division. *)
Lemma floor_log2_spec a b :
  0 < a -> 0 < b ->
  (if 0 <=? PyFloat.floor_log2 a b then b * 2 ^ PyFloat.floor_log2 a b <= a
   else b <= a * 2 ^ (- PyFloat.floor_log2 a b)) /\
  (if 0 <=? PyFloat.floor_log2 a b + 1 then a < b * 2 ^ (PyFloat.floor_log2 a b + 1)
   else a * 2 ^ (- (PyFloat.floor_log2 a b + 1)) < b).
Proof.
  intros Ha Hb. unfold PyFloat.floor_log2.
  destruct (Z.log2_spec a Ha) as [Hla Hua]. destruct (Z.log2_spec b Hb) as [Hlb Hub].
  pose proof (Z.log2_nonneg a) as Hla0. pose proof (Z.log2_nonneg b) as Hlb0.
  set (la := Z.log2 a) in *. set (lb := Z.log2 b) in *.
  set (d := la - lb).
  assert (Hpa : 0 < 2 ^ la) by (apply Z.pow_pos_nonneg; lia).
  assert (Hpb : 0 < 2 ^ lb) by (apply Z.pow_pos_nonneg; lia).
  destruct (0 <=? d) eqn:Hd.
  - apply Z.leb_le in Hd.
    assert (Hpd : 0 < 2 ^ d) by (apply Z.pow_pos_nonneg; lia).
    assert (Hla_eq : 2 ^ la = 2 ^ lb * 2 ^ d).
    { rewrite <- Z.pow_add_r by lia. f_equal. unfold d. lia. }
    destruct (b * 2 ^ d <=? a) eqn:Ht.
    + apply Z.leb_le in Ht.
      replace (0 <=? d) with true by (symmetry; apply Z.leb_le; lia).
      replace (0 <=? d + 1) with true by (symmetry; apply Z.leb_le; lia).
      split; [exact Ht |].
      rewrite Z.pow_add_r, Z.pow_1_r by lia.
      rewrite Z.pow_succ_r in Hua by lia. nia.
    + apply Z.leb_gt in Ht.
      replace (d - 1 + 1) with d by lia.
      replace (0 <=? d) with true by (symmetry; apply Z.leb_le; lia).
      split; [| exact Ht].
      destruct (0 <=? d - 1) eqn:Hd1.
      * apply Z.leb_le in Hd1.
        assert (Hpd1 : 0 < 2 ^ (d - 1)) by (apply Z.pow_pos_nonneg; lia).
        assert (Hd_eq : 2 ^ d = 2 * 2 ^ (d - 1)).
        { rewrite <- Z.pow_succ_r by lia. f_equal. lia. }
        rewrite Z.pow_succ_r in Hub by lia. nia.
      * apply Z.leb_gt in Hd1. assert (d = 0) by lia.
        replace (- (d - 1)) with 1 by lia. rewrite Z.pow_1_r.
        replace la with lb in * by (unfold d in *; lia).
        rewrite Z.pow_succ_r in Hub by lia. lia.
  - apply Z.leb_gt in Hd.
    assert (Hpd : 0 < 2 ^ (- d)) by (apply Z.pow_pos_nonneg; lia).
    assert (Hlb_eq : 2 ^ lb = 2 ^ la * 2 ^ (- d)).
    { rewrite <- Z.pow_add_r by lia. f_equal. unfold d. lia. }
    destruct (b <=? a * 2 ^ (- d)) eqn:Ht.
    + apply Z.leb_le in Ht.
      replace (0 <=? d) with false by (symmetry; apply Z.leb_gt; lia).
      split; [exact Ht |].
      destruct (0 <=? d + 1) eqn:Hd1.
      * apply Z.leb_le in Hd1. assert (d = -1) by lia.
        replace (d + 1) with 0 by lia. rewrite Z.pow_0_r.
        replace (- d) with 1 in * by lia. rewrite Z.pow_1_r in *.
        rewrite Z.pow_succ_r in Hua by lia. lia.
      * apply Z.leb_gt in Hd1.
        assert (Hpd1 : 0 < 2 ^ (- (d + 1))) by (apply Z.pow_pos_nonneg; lia).
        assert (Hd_eq : 2 ^ (- d) = 2 * 2 ^ (- (d + 1))).
        { rewrite <- Z.pow_succ_r by lia. f_equal. lia. }
        rewrite Z.pow_succ_r in Hua by lia. nia.
    + apply Z.leb_gt in Ht.
      replace (d - 1 + 1) with d by lia.
      replace (0 <=? d - 1) with false by (symmetry; apply Z.leb_gt; lia).
      replace (0 <=? d) with false by (symmetry; apply Z.leb_gt; lia).
      split; [| exact Ht].
      replace (- (d - 1)) with (Z.succ (- d)) by lia.
      rewrite Z.pow_succ_r by lia.
      rewrite Z.pow_succ_r in Hub by lia. nia.
Qed.

(** Rounding to the nearest integer stays within integer bounds. *)
Lemma rne_bounds n d N :
  (0 <= n)%Z -> (0 < d)%Z -> (n <= N * d)%Z -> (0 <= PyFloat.rne n d <= N)%Z.
Proof.
  intros Hn Hd HN. unfold PyFloat.rne.
  pose proof (Z.div_mod n d ltac:(lia)) as Hdm.
  pose proof (Z.mod_pos_bound n d Hd) as Hr.
  assert (Hq0 : (0 <= n / d)%Z) by (apply Z.div_pos; lia).
  assert (HqN : (n / d <= N)%Z) by (apply Z.div_le_upper_bound; lia).
  assert (Hstep : (0 < n mod d -> n / d + 1 <= N)%Z) by nia.
  destruct (2 * (n mod d) ?= d)%Z eqn:Hc; [| lia |].
  - apply Z.compare_eq in Hc. destruct (Z.even (n / d)); lia.
  - apply Z.compare_gt_iff in Hc. lia.
Qed.

Lemma rne_lower n d N : 0 < d -> N * d <= n -> N <= PyFloat.rne n d.
Proof.
  intros Hd HN. unfold PyFloat.rne.
  assert (HqN : N <= n / d) by (apply Z.div_le_lower_bound; lia).
  destruct (2 * (n mod d) ?= d); [destruct (Z.even (n / d)) | |]; lia.
Qed.

Ltac pow_split x y z :=
  let H := fresh "Hpow" in
  assert (H : 2 ^ x = 2 ^ y * 2 ^ z)
    by (rewrite <- Z.pow_add_r by lia; f_equal; lia).

(** The significand [round_pos] computes has at most 53 bits (or is
    [2 ^ 53], the first number of the next binade), and exactly 53 when the
    exponent is above the least one: the rounding is done at the exponent
    binary64 gives the quotient. *)
Lemma round_pos_mantissa a b :
  0 < a -> 0 < b ->
  let e := Z.max (PyFloat.floor_log2 a b - 52) (-1074) in
  let m := if 0 <=? e then PyFloat.rne a (b * 2 ^ e) else PyFloat.rne (a * 2 ^ (- e)) b in
  0 <= m <= 2 ^ 53 /\ (-1074 < e -> 2 ^ 52 <= m).
Proof.
  intros Ha Hb. destruct (floor_log2_spec a b Ha Hb) as [Hlo Hhi].
  set (fl := PyFloat.floor_log2 a b) in *. intros e m. subst m.
  destruct (Z.max_spec (fl - 52) (-1074)) as [[Hlt He] | [Hge He]];
    fold e in He; rewrite He; clear He.
  - change (0 <=? -1074) with false. cbv iota.
    replace (0 <=? fl + 1) with false in Hhi by (symmetry; apply Z.leb_gt; lia).
    split; [| lia].
    apply rne_bounds; [| lia |].
    + apply Z.mul_nonneg_nonneg; [lia | apply Z.pow_nonneg; lia].
    + pow_split (- (fl + 1)) 1022 (- (fl + 1) - 1022).
      assert (0 < 2 ^ (- (fl + 1) - 1022)) by (apply Z.pow_pos_nonneg; lia).
      change (- -1074) with (1022 + 52). rewrite Z.pow_add_r by lia.
      assert (0 < 2 ^ 1022) by reflexivity.
      assert (H52 : 2 ^ 53 = 2 * 2 ^ 52) by reflexivity.
      assert (0 < 2 ^ 52) by reflexivity.
      rewrite H52. nia.
  - destruct (0 <=? fl - 52) eqn:E.
    + apply Z.leb_le in E.
      replace (0 <=? fl) with true in Hlo by (symmetry; apply Z.leb_le; lia).
      replace (0 <=? fl + 1) with true in Hhi by (symmetry; apply Z.leb_le; lia).
      pow_split fl 52 (fl - 52). pow_split (fl + 1) 53 (fl - 52).
      assert (0 < 2 ^ (fl - 52)) by (apply Z.pow_pos_nonneg; lia).
      rewrite Hpow in Hlo. rewrite Hpow0 in Hhi.
      split; [| intros _; apply rne_lower; nia].
      apply rne_bounds; nia.
    + apply Z.leb_gt in E.
      assert (0 < 2 ^ (- (fl - 52))) by (apply Z.pow_pos_nonneg; lia).
      destruct (0 <=? fl) eqn:E0.
      * apply Z.leb_le in E0.
        replace (0 <=? fl + 1) with true in Hhi by (symmetry; apply Z.leb_le; lia).
        pow_split 52 fl (- (fl - 52)). pow_split 53 (fl + 1) (- (fl - 52)).
        assert (0 < 2 ^ fl) by (apply Z.pow_pos_nonneg; lia).
        assert (0 < 2 ^ (fl + 1)) by (apply Z.pow_pos_nonneg; lia).
        rewrite Hpow, Hpow0.
        split; [| intros _; apply rne_lower; nia].
        apply rne_bounds; nia.
      * apply Z.leb_gt in E0.
        pow_split (- (fl - 52)) (- fl) 52.
        assert (0 < 2 ^ (- fl)) by (apply Z.pow_pos_nonneg; lia).
        assert (H52 : 0 < 2 ^ 52) by reflexivity.
        split; [| intros _; apply rne_lower; [lia | rewrite Hpow; nia]].
        apply rne_bounds; [nia | lia |].
        destruct (0 <=? fl + 1) eqn:E1.
        -- apply Z.leb_le in E1. assert (fl = -1) by lia. subst fl.
           replace (PyFloat.floor_log2 a b) with (-1) in * by lia.
           change (- (-1 - 52)) with 53. simpl in Hhi. nia.
        -- apply Z.leb_gt in E1.
           pow_split (- (fl - 52)) (- (fl + 1)) 53.
           assert (0 < 2 ^ (- (fl + 1))) by (apply Z.pow_pos_nonneg; lia).
           rewrite Hpow0. nia.
Qed.

End Rounding.

(** The float operations agree with the IEEE 754 specification of the
    Standard Library, at the binary64 format, on the samples. *)
Lemma float_arithmetic_cross_check : forallb Binary64.agree Binary64.samples = true.
Proof. vm_compute. reflexivity. Qed.

(** [int] takes TAB..CR and the space for whitespace, not the separators
    FS..US that [str.strip] removes; it accepts a sign and single
    underscores between digits. *)
Lemma int_examples :
  Py.int ("50" +:+ String "031"%char EmptyString) = None
  /\ Py.strip ("50" +:+ String "031"%char EmptyString) = "50"
  /\ Py.int (String "028"%char "50") = None
  /\ Py.int (" 50" +:+ String "009"%char EmptyString) = Some 50%Z
  /\ Py.int ("50" +:+ String "160"%char EmptyString) = Some 50%Z
  /\ Py.int "-1_000" = Some (-1000)%Z
  /\ Py.int "1__0" = None
  /\ Py.int "+ 5" = None
  /\ Py.int "5.0" = None
  /\ Py.int EmptyString = None.
Proof. repeat split; vm_compute; reflexivity. Qed.

Section MaxFrom.

Context {A : Type} (key : A -> pyfloat).

Lemma max_from_elem l : forall best, PyNum.max_from key best l ∈ best :: l.
Proof.
  induction l as [| x l IH]; intros best; simpl; [apply list_elem_of_here |].
  destruct (PyNum.gt (key x) (key best)).
  - apply list_elem_of_further, IH.
  - specialize (IH best). apply elem_of_cons in IH as [-> | IH];
      [apply list_elem_of_here | do 2 apply list_elem_of_further; exact IH].
Qed.

Lemma max_from_ge l : forall best,
  PyNum.gt (key best) (key (PyNum.max_from key best l)) = false.
Proof.
  induction l as [| x l IH]; intros best; simpl; [apply gt_irrefl |].
  destruct (PyNum.gt (key x) (key best)) eqn:E.
  - exact (gt_lt_le _ _ _ E (IH x)).
  - apply IH.
Qed.

(** The result is the first item of maximal key: every item before it has
    a strictly smaller key, no item after it a greater one. *)
Lemma max_from_first l : forall best,
  Forall (fun x => key x <> NaN) (best :: l) ->
  exists l1 l2,
    best :: l = l1 ++ PyNum.max_from key best l :: l2 /\
    Forall (fun x => PyNum.gt (key (PyNum.max_from key best l)) (key x) = true) l1 /\
    Forall (fun x => PyNum.gt (key x) (key (PyNum.max_from key best l)) = false) l2.
Proof.
  induction l as [| x l IH]; intros best Hnan; simpl.
  - exists [], []. repeat split; constructor.
  - apply Forall_cons in Hnan as [Hbest Hnan].
    pose proof Hnan as Hxl. apply Forall_cons in Hxl as [Hx Hrest].
    destruct (PyNum.gt (key x) (key best)) eqn:E.
    + destruct (IH x Hnan) as (l1 & l2 & Heq & H1 & H2).
      exists (best :: l1), l2. repeat split.
      * simpl. rewrite Heq. reflexivity.
      * constructor; [| exact H1].
        apply (gt_lt_le_lt _ (key x)); [exact E | apply max_from_ge |].
        exact (proj1 (Forall_forall _ _) Hnan _ (max_from_elem l x)).
      * exact H2.
    + assert (Hbl : Forall (fun x => key x <> NaN) (best :: l)) by (constructor; assumption).
      clear Hrest.
      destruct (IH best Hbl) as (l1 & l2 & Heq & H1 & H2).
      destruct l1 as [| b l1]; simpl in Heq.
      * injection Heq as Hb Hl. exists [], (x :: l2). repeat split.
        -- simpl. rewrite <- Hb, Hl. reflexivity.
        -- constructor.
        -- constructor; [| exact H2]. rewrite <- Hb. exact E.
      * injection Heq as Hb Hl. subst b. exists (best :: x :: l1), l2. repeat split.
        -- simpl. do 2 f_equal. exact Hl.
        -- apply Forall_cons in H1 as [Hlt H1].
           constructor; [exact Hlt |]. constructor; [| exact H1].
           exact (gt_le_lt_lt _ _ _ E Hlt Hx).
        -- exact H2.
Qed.

End MaxFrom.

(** ** The availability loop *)

Lemma next_system_registered n st :
  registered n ->
  exists system, next_system (fun s => String.eqb (name s) n) st = (Ok system, st)
                 /\ name system = n /\ system ∈ systems.
Proof.
  intros [s Hs]. exists s. unfold next_system. rewrite Hs. split; [reflexivity |].
  apply List.find_some in Hs as [Hin Hp].
  split; [apply String.eqb_eq, Hp | apply list_elem_of_In, Hin].
Qed.

(** The loop returns the surveyed hosts, in order, appended to its
    accumulator; each of them carries its score of this pass in
    [current_score]; attributes of other hosts are untouched. *)
Lemma filter_available_survey W cands :
  uninterrupted W -> Forall registered cands -> NoDup cands ->
  forall acc st, exists st1,
    filter_available W cands acc st = (Ok (acc ++ (survey W cands st).*1), st1) /\
    Forall (fun p => name p.1 ∈ cands /\ p.1 ∈ systems /\
                     current_score st1 !! name p.1 = Some p.2) (survey W cands st) /\
    (forall n, n ∉ cands -> current_score st1 !! n = current_score st !! n).
Proof.
  intros HW. induction cands as [| n rest IH]; intros Hreg Hnd acc st.
  - exists st. simpl. rewrite app_nil_r.
    split; [reflexivity | split; [constructor | reflexivity]].
  - apply Forall_cons in Hreg as [Hn Hreg]. apply NoDup_cons in Hnd as [Hnot Hnd].
    specialize (IH Hreg Hnd).
    assert (Hweaken : forall st3 l,
               Forall (fun p => name p.1 ∈ rest /\ p.1 ∈ systems /\
                                current_score st3 !! name p.1 = Some p.2) l ->
               Forall (fun p => name p.1 ∈ n :: rest /\ p.1 ∈ systems /\
                                current_score st3 !! name p.1 = Some p.2) l).
    { intros st3 l Hall. eapply Forall_impl; [exact Hall |].
      intros p (H1 & H2 & H3). repeat split; [| exact H2 | exact H3].
      apply elem_of_cons. right. exact H1. }
    destruct (next_system_registered n st Hn) as (system & Enext & Hname & Hin).
    simpl. rewrite Enext. erewrite bind_Ok by exact Enext.
    destruct (check_system_availability_returns W system HW st) as (b & st1 & Echeck).
    pose proof (check_system_availability_keeps W system st) as Hk1.
    rewrite Echeck in Hk1 |- *. simpl in Hk1.
    erewrite bind_Ok by exact Echeck.
    destruct b.
    + destruct (get_system_resources_returns W system HW st1) as (r & st2 & Eres).
      pose proof (get_system_resources_keeps W system st1) as Hk2.
      rewrite Eres in Hk2 |- *. simpl in Hk2.
      erewrite bind_Ok by exact Eres.
      destruct (get_available r).
      * erewrite bind_Ok by reflexivity.
        match goal with
        | |- context [filter_available W rest _ ?s] =>
            destruct (IH (acc ++ [system]) s) as (st3 & Eloop & Hall & Hframe)
        end.
        exists st3. rewrite Eloop. split; [| split].
        -- rewrite <- app_assoc. reflexivity.
        -- constructor; [| apply Hweaken, Hall].
           simpl. rewrite Hname. split; [apply elem_of_cons; left; reflexivity |].
           split; [exact Hin |].
           rewrite (Hframe n Hnot). simpl. rewrite Hname. apply lookup_insert_eq.
        -- intros n' Hn'. apply not_elem_of_cons in Hn' as [Hne Hn'].
           rewrite (Hframe n' Hn'). simpl.
           rewrite Hname, lookup_insert_ne by congruence. congruence.
      * destruct (IH acc st2) as (st3 & Eloop & Hall & Hframe).
        exists st3. rewrite Eloop. split; [reflexivity | split; [apply Hweaken, Hall |]].
        intros n' Hn'. apply not_elem_of_cons in Hn' as [Hne Hn'].
        rewrite (Hframe n' Hn'). congruence.
    + destruct (IH acc st1) as (st3 & Eloop & Hall & Hframe).
      exists st3. rewrite Eloop. split; [reflexivity | split; [apply Hweaken, Hall |]].
      intros n' Hn'. apply not_elem_of_cons in Hn' as [Hne Hn'].
      rewrite (Hframe n' Hn'). congruence.
Qed.

(** ** The selector *)

Lemma rounded_not_nan q : PyFloat.rounded q <> NaN.
Proof. unfold PyFloat.rounded. destruct (PyFloat.round_b64 q); discriminate. Qed.

(** A score of a survey is a number. *)
Lemma survey_not_nan W cands : forall st,
  Forall (fun p => p.2 <> NaN) (survey W cands st).
Proof.
  induction cands as [| n rest IH]; intros st; simpl; [constructor |].
  destruct (next_system _ st) as [[system | e] st0]; [| constructor].
  destruct (check_system_availability W system st0) as [[[|] | e] st1];
    [| apply IH | constructor].
  destruct (get_system_resources W system st1) as [[r | e] st2]; [| constructor].
  destruct (get_available r); [| apply IH].
  constructor; [apply rounded_not_nan | apply IH].
Qed.

(** What [select_optimal_system] computes, in terms of the survey of its
    candidates: the fallback on an empty survey, the scan of [max] over the
    scores of this pass otherwise. *)
Lemma select_optimal_system_scan W workload_type model_size st :
  uninterrupted W ->
  exists st1,
    Forall (fun p => name p.1 ∈ candidates workload_type /\ p.1 ∈ systems /\
                     getattr_current_score st1 p.1 = p.2)
           (survey W (candidates workload_type) st) /\
    select_optimal_system W workload_type model_size st =
      match (survey W (candidates workload_type) st).*1 with
      | [] => (Ok dgx_spark, snd (logger WarnNoSystems st1))
      | s :: l =>
          let best := PyNum.max_from (getattr_current_score st1) s l in
          (Ok best, snd (logger (InfoSelected (name best) workload_type) st1))
      end.
Proof.
  intros HW.
  destruct (filter_available_survey W (candidates workload_type) HW
              (candidates_registered workload_type) (candidates_NoDup workload_type) [] st)
    as (st1 & Eloop & Hall & _).
  simpl in Eloop. exists st1. split.
  - eapply Forall_impl; [exact Hall |].
    intros p (H1 & H2 & H3). repeat split; [exact H1 | exact H2 |].
    unfold getattr_current_score. rewrite H3. reflexivity.
  - unfold select_optimal_system. cbv zeta.
    erewrite bind_Ok by exact Eloop.
    destruct ((survey W (candidates workload_type) st).*1) as [| s l]; reflexivity.
Qed.

Lemma systems_name_inj s1 s2 :
  s1 ∈ systems -> s2 ∈ systems -> name s1 = name s2 -> s1 = s2.
Proof.
  unfold systems, load_system_configs. intros H1 H2.
  repeat (apply elem_of_cons in H1 as [-> | H1]);
    try (apply elem_of_nil in H1; destruct H1);
    repeat (apply elem_of_cons in H2 as [-> | H2]);
    try (apply elem_of_nil in H2; destruct H2);
    simpl; intros Hn; solve [reflexivity | discriminate Hn].
Qed.

(** The selector returns, and returns a remote registry host. *)
Lemma select_optimal_system_returns W workload_type model_size st :
  uninterrupted W ->
  exists best st',
    select_optimal_system W workload_type model_size st = (Ok best, st') /\
    best ∈ systems /\
    (best = dgx_spark \/ name best ∈ candidates workload_type).
Proof.
  intros HW.
  destruct (select_optimal_system_scan W workload_type model_size st HW)
    as (st1 & Hall & ->).
  destruct (survey W (candidates workload_type) st) as [| [s q] sv] eqn:E.
  - eexists _, _. split; [reflexivity |]. split; [compute_done | left; reflexivity].
  - rewrite fmap_cons. cbv beta iota zeta. simpl fst.
    pose proof (max_from_elem (getattr_current_score st1) (sv.*1) s) as Hin.
    change (s :: sv.*1) with (((s, q) :: sv).*1) in Hin.
    apply list_elem_of_fmap in Hin as (p & Hp & Hpin).
    rewrite Hp.
    eexists _, _. split; [reflexivity |].
    destruct (proj1 (Forall_forall _ _) Hall p Hpin) as (H1 & H2 & _).
    split; [exact H2 | right; exact H1].
Qed.

(** C2 -- When candidates survive availability and telemetry filtering,
    [select_optimal_system] returns the surviving host of highest score
    (100 minus average utilization, in float arithmetic); among hosts that
    tie on the highest score it returns the one earliest in the
    routing-table order of the workload. The declared [priority] is not
    consulted. *)
Theorem select_optimal_system_first_best W workload_type model_size st :
  uninterrupted W ->
  survey W (candidates workload_type) st <> [] ->
  exists best q before after st',
    select_optimal_system W workload_type model_size st = (Ok best, st') /\
    survey W (candidates workload_type) st = before ++ (best, q) :: after /\
    Forall (fun p => float_lt p.2 q) before /\
    Forall (fun p => float_le p.2 q) after.
Proof.
  intros HW Hne.
  destruct (select_optimal_system_scan W workload_type model_size st HW)
    as (st1 & Hall & ->).
  pose proof (survey_not_nan W (candidates workload_type) st) as Hnan.
  destruct (survey W (candidates workload_type) st) as [| [s q0] sv] eqn:E;
    [congruence |].
  rewrite fmap_cons. cbv beta iota zeta. simpl fst.
  assert (Hkeys : Forall (fun x => getattr_current_score st1 x <> NaN) (s :: sv.*1)).
  { change (s :: sv.*1) with (((s, q0) :: sv).*1).
    apply Forall_fmap, Forall_forall. intros p Hp. simpl.
    destruct (proj1 (Forall_forall _ _) Hall p Hp) as (_ & _ & ->).
    exact (proj1 (Forall_forall _ _) Hnan p Hp). }
  destruct (max_from_first (getattr_current_score st1) (sv.*1) s Hkeys)
    as (l1 & l2 & Heq & Hlt & Hle).
  change (s :: sv.*1) with (((s, q0) :: sv).*1) in Heq.
  apply fmap_app_inv in Heq as (before & rest & -> & Hrest & Hsv).
  symmetry in Hrest. apply fmap_cons_inv in Hrest as (x & after & Hx & -> & ->).
  rewrite Hsv in Hall, Hnan.
  apply Forall_app in Hall as [Hbefore Hx_after].
  apply Forall_cons in Hx_after as [(_ & _ & Hkx) Hafter].
  apply Forall_app in Hnan as [_ Hnan].
  apply Forall_cons in Hnan as [Hqx Hnan_after].
  exists x.1, x.2, before, after. eexists. split; [rewrite Hx; reflexivity |].
  split; [rewrite Hsv; destruct x; reflexivity |].
  rewrite Hx, Hkx in Hlt, Hle. split.
  - apply Forall_forall. intros p Hp.
    destruct (proj1 (Forall_forall _ _) Hbefore p Hp) as (_ & _ & Hkp).
    pose proof (proj1 (Forall_forall _ _) Hlt p.1 (list_elem_of_fmap_2 fst _ _ Hp)) as Hq.
    simpl in Hq. rewrite Hkp in Hq. exact Hq.
  - apply Forall_forall. intros p Hp.
    destruct (proj1 (Forall_forall _ _) Hafter p Hp) as (_ & _ & Hkp).
    pose proof (proj1 (Forall_forall _ _) Hle p.1 (list_elem_of_fmap_2 fst _ _ Hp)) as Hq.
    simpl in Hq. rewrite Hkp in Hq.
    split; [exact (proj1 (Forall_forall _ _) Hnan_after p Hp) |]. split; [exact Hqx | exact Hq].
Qed.

Lemma uninterrupted_W_reporting util_of : uninterrupted (W_reporting util_of).
Proof. intros n c e H. simpl in H. destruct c; discriminate H. Qed.

Lemma uninterrupted_W_no_echo : uninterrupted W_no_echo.
Proof. intros n c e H. simpl in H. destruct c; discriminate H. Qed.

Lemma select_optimal_system_first_best_witness :
  exists best q before after st',
    select_optimal_system W_loaded "batch_processing" "medium" initial_state = (Ok best, st') /\
    survey W_loaded (candidates "batch_processing") initial_state
      = before ++ (best, q) :: after /\
    Forall (fun p => float_lt p.2 q) before /\
    Forall (fun p => float_le p.2 q) after.
Proof.
  apply (select_optimal_system_first_best W_loaded "batch_processing" "medium" initial_state).
  - exact (uninterrupted_W_reporting _).
  - vm_compute. discriminate.
Defined.

(** Two hosts tie on score and the one of higher declared priority number,
    first in the routing list, is returned. *)
Lemma select_optimal_system_tie_ignores_priority :
  survey W_even (candidates "large_inference") initial_state
    = [(hpc_1, Finite (50 # 1)); (dgx_spark, Finite (50 # 1))]
  /\ (priority dgx_spark < priority hpc_1)%Z
  /\ fst (select_optimal_system W_even "large_inference" "medium" initial_state) = Ok hpc_1.
Proof. split; [| split]; vm_compute; reflexivity. Qed.

(** Two utilizations that differ, [2 ^ 53 + 1] and [2 ^ 53], give the same
    float score, and the first host of the routing list is returned. *)
Lemma select_optimal_system_rounding_tie :
  survey W_rounding_tie (candidates "batch_processing") initial_state
    = [(hpc_1, Finite (-9007199254740892 # 1)); (hpc_2, Finite (-9007199254740892 # 1))]
  /\ fst (select_optimal_system W_rounding_tie "batch_processing" "medium" initial_state)
     = Ok hpc_1.
Proof. split; vm_compute; reflexivity. Qed.

(** A host whose telemetry has a field that [int] rejects does not survive
    the filter, however low the utilization it reports. *)
Lemma select_optimal_system_unit_separator :
  survey W_unit_separator (candidates "batch_processing") initial_state
    = [(hpc_2, Finite (50 # 1))]
  /\ fst (select_optimal_system W_unit_separator "batch_processing" "medium" initial_state)
     = Ok hpc_2.
Proof. split; vm_compute; reflexivity. Qed.

(** C3 -- When no candidate survives availability and telemetry filtering,
    [select_optimal_system] returns the registry entry of dgx-spark, whatever
    that host's own availability, without raising; the fallback is announced
    by a logged warning only. *)
Theorem select_optimal_system_fallback W workload_type model_size st :
  uninterrupted W ->
  survey W (candidates workload_type) st = [] ->
  exists st',
    select_optimal_system W workload_type model_size st = (Ok dgx_spark, st') /\
    last (log st') = Some WarnNoSystems.
Proof.
  intros HW Hnone.
  destruct (select_optimal_system_scan W workload_type model_size st HW)
    as (st1 & _ & ->).
  rewrite Hnone. eexists. split; [reflexivity |]. simpl. apply last_snoc.
Qed.

Lemma select_optimal_system_fallback_witness :
  exists st',
    select_optimal_system W_timeout "interactive" "medium" initial_state = (Ok dgx_spark, st')
    /\ last (log st') = Some WarnNoSystems.
Proof.
  apply (select_optimal_system_fallback W_timeout "interactive" "medium" initial_state).
  - exact uninterrupted_W_timeout.
  - vm_compute. reflexivity.
Defined.

(** A fallback and a confident placement that nothing returned tells
    apart: the same host record, the same [current_score] attributes, the
    same fleet result map. *)
Lemma select_optimal_system_fallback_unmarked :
  survey W_no_echo (candidates "interactive") st_selected_before = []
  /\ survey W_even (candidates "interactive") st_selected_before <> []
  /\ fst (select_optimal_system W_no_echo "interactive" "medium" st_selected_before)
     = fst (select_optimal_system W_even "interactive" "medium" st_selected_before)
  /\ current_score
       (snd (select_optimal_system W_no_echo "interactive" "medium" st_selected_before))
     = current_score
         (snd (select_optimal_system W_even "interactive" "medium" st_selected_before))
  /\ fst (orchestrate_full_deployment W_no_echo ["interactive"] st_selected_before)
     = fst (orchestrate_full_deployment W_even ["interactive"] st_selected_before).
Proof.
  split; [vm_compute; reflexivity |].
  split; [vm_compute; discriminate |].
  split; [vm_compute; reflexivity |].
  split; vm_compute; reflexivity.
Qed.

(** C10 -- For a workload type absent from the routing table the candidate
    list is the single name dgx-spark, and [select_optimal_system] returns
    the dgx-spark registry entry without raising. *)
Theorem select_optimal_system_unknown_workload workload_type :
  routing_rules !! workload_type = None ->
  candidates workload_type = ["dgx-spark"] /\
  forall W model_size st,
    uninterrupted W ->
    exists st', select_optimal_system W workload_type model_size st = (Ok dgx_spark, st').
Proof.
  intros Hnone.
  assert (Hc : candidates workload_type = ["dgx-spark"]).
  { unfold candidates. rewrite Hnone. reflexivity. }
  split; [exact Hc |].
  intros W model_size st HW.
  destruct (select_optimal_system_returns W workload_type model_size st HW)
    as (best & st' & E & Hin & Hbest).
  exists st'. rewrite E. do 2 f_equal.
  destruct Hbest as [-> | Hname]; [reflexivity |].
  rewrite Hc in Hname. apply list_elem_of_singleton in Hname.
  apply systems_name_inj; [exact Hin | compute_done | exact Hname].
Qed.

Lemma select_optimal_system_unknown_workload_witness :
  candidates "production" = ["dgx-spark"] /\
  exists st',
    select_optimal_system W_timeout "production" "medium" initial_state = (Ok dgx_spark, st').
Proof.
  destruct (select_optimal_system_unknown_workload "production") as [Hc Hsel].
  - vm_compute. reflexivity.
  - split; [exact Hc |].
    exact (Hsel W_timeout "medium" initial_state uninterrupted_W_timeout).
Defined.

(** The [model_size] argument has no influence on the selection. *)
Lemma select_optimal_system_model_size_unused W workload_type model_size model_size' st :
  select_optimal_system W workload_type model_size st
  = select_optimal_system W workload_type model_size' st.
Proof. reflexivity. Qed.

(** C1 -- at the workload "batch_processing" with model size "large" the
    intersection of the workload candidates with the size preference is
    hpc-1 alone, yet both hpc-1 and hpc-2 are surveyed and the less loaded
    hpc-2 is selected. *)
Theorem select_optimal_system_large_not_narrowed :
  narrowed_candidates "batch_processing" "large" = ["hpc-1"]
  /\ (survey W_loaded (candidates "batch_processing") initial_state).*1 = [hpc_1; hpc_2]
  /\ fst (select_optimal_system W_loaded "batch_processing" "large" initial_state) = Ok hpc_2.
Proof. split; [| split]; vm_compute; reflexivity. Qed.

(** ** Determinism of the selector *)

Section Simulation.

Context {A B : Type} (R : state -> state -> Prop).

Lemma sim_ret (a : A) : sim R (ret a) (ret a).
Proof. intros s1 s2 H. split; [reflexivity | exact H]. Qed.

Lemma sim_bind (m1 m2 : M A) (k1 k2 : A -> M B) :
  sim R m1 m2 -> (forall a, sim R (k1 a) (k2 a)) -> sim R (bind m1 k1) (bind m2 k2).
Proof.
  intros Hm Hk s1 s2 H. unfold bind. destruct (Hm s1 s2 H) as [Hfst Hsnd].
  destruct (m1 s1) as [[a1 | e1] s1'], (m2 s2) as [[a2 | e2] s2']; simpl in *;
    try discriminate Hfst.
  - injection Hfst as <-. exact (Hk a1 s1' s2' Hsnd).
  - injection Hfst as <-. split; [reflexivity | exact Hsnd].
Qed.

Lemma sim_try (m1 m2 : M A) (h1 h2 : exn -> M A) :
  sim R m1 m2 -> (forall e, sim R (h1 e) (h2 e)) ->
  sim R (try_except m1 h1) (try_except m2 h2).
Proof.
  intros Hm Hh s1 s2 H. unfold try_except. destruct (Hm s1 s2 H) as [Hfst Hsnd].
  destruct (m1 s1) as [[a1 | e1] s1'], (m2 s2) as [[a2 | e2] s2']; simpl in *;
    try discriminate Hfst.
  - split; [exact Hfst | exact Hsnd].
  - injection Hfst as <-. destruct (is_Exception e1).
    + exact (Hh e1 s1' s2' Hsnd).
    + split; [reflexivity | exact Hsnd].
Qed.

(** Sequencing towards a postcondition on values. *)
Lemma bind_rel_out (post : B -> state -> state -> Prop)
    (m1 m2 : M A) (k1 k2 : A -> M B) s1 s2 :
  sim R m1 m2 -> R s1 s2 ->
  (forall a s1' s2', R s1' s2' -> rel_out post (k1 a s1') (k2 a s2')) ->
  rel_out post (bind m1 k1 s1) (bind m2 k2 s2).
Proof.
  intros Hm H Hk. unfold bind. destruct (Hm s1 s2 H) as [Hfst Hsnd].
  destruct (m1 s1) as [[a1 | e1] s1'], (m2 s2) as [[a2 | e2] s2']; simpl in *;
    try discriminate Hfst.
  - injection Hfst as <-. exact (Hk a1 s1' s2' Hsnd).
  - injection Hfst as <-. split; [reflexivity |]. intros b Hb. discriminate Hb.
Qed.

End Simulation.

Section Determinism.

Variables W1 W2 : World.

Lemma sim_logger P r1 r2 : sim (aligned W1 W2 P) (logger r1) (logger r2).
Proof. intros s1 s2 H. split; [reflexivity | exact H]. Qed.

Lemma sim_lift {A} P (r : result A) : sim (aligned W1 W2 P) (lift r) (lift r).
Proof. intros s1 s2 H. split; [reflexivity | exact H]. Qed.

Lemma sim_next_system P p : sim (aligned W1 W2 P) (next_system p) (next_system p).
Proof.
  intros s1 s2 H. unfold next_system.
  destruct (List.find p systems); (split; [reflexivity | exact H]).
Qed.

Lemma same_replies_S c1 c2 :
  same_replies W1 W2 c1 c2 -> same_replies W1 W2 (S c1) (S c2).
Proof.
  intros H k cmd. specialize (H (S k) cmd).
  rewrite <- !Nat.add_succ_comm in H. exact H.
Qed.

Lemma sim_subprocess_run P cmd :
  sim (aligned W1 W2 P) (subprocess_run W1 cmd) (subprocess_run W2 cmd).
Proof.
  intros s1 s2 [Hrep Hsc]. unfold subprocess_run.
  pose proof (Hrep 0%nat cmd) as H0. rewrite !Nat.add_0_r in H0. rewrite H0.
  destruct (run_reply W2 (clock s2) cmd); simpl;
    (split; [reflexivity | split; [apply same_replies_S, Hrep | exact Hsc]]).
Qed.

Lemma sim_check_system_availability P system :
  sim (aligned W1 W2 P)
      (check_system_availability W1 system) (check_system_availability W2 system).
Proof.
  unfold check_system_availability.
  destruct (String.eqb (type system) "mac"); [apply sim_ret |].
  apply sim_try.
  - apply sim_bind; [apply sim_subprocess_run |].
    intros r. destruct (negb (fst r =? 0)%Z); [apply sim_ret |].
    apply sim_bind; [apply sim_subprocess_run | intros r'; apply sim_ret].
  - intros e. apply sim_bind; [apply sim_logger | intros _; apply sim_ret].
Qed.

Lemma sim_get_system_resources P system :
  sim (aligned W1 W2 P)
      (get_system_resources W1 system) (get_system_resources W2 system).
Proof.
  unfold get_system_resources.
  destruct (String.eqb (type system) "mac"); [apply sim_ret |].
  apply sim_bind.
  - apply sim_try.
    + apply sim_bind; [apply sim_subprocess_run |].
      intros r. destruct (fst r =? 0)%Z; [| apply sim_ret].
      apply sim_bind; [apply sim_lift | intros d; apply sim_ret].
    + intros e. apply sim_bind; [apply sim_logger | intros _; apply sim_ret].
  - intros [d |]; apply sim_ret.
Qed.

Lemma aligned_set_current_score P system q s1 s2 :
  aligned W1 W2 P s1 s2 ->
  aligned W1 W2 (P ++ [system])
    (snd (set_current_score system q s1)) (snd (set_current_score system q s2)).
Proof.
  intros [Hrep Hsc]. split; [exact Hrep |].
  intros s Hs. simpl. rewrite !lookup_insert.
  destruct (decide (name system = name s)); [reflexivity |].
  apply elem_of_app in Hs as [Hs | Hs]; [exact (Hsc s Hs) |].
  apply list_elem_of_singleton in Hs. congruence.
Qed.

Lemma filter_available_sim cands : forall acc s1 s2,
  aligned W1 W2 acc s1 s2 ->
  rel_out (aligned W1 W2)
    (filter_available W1 cands acc s1) (filter_available W2 cands acc s2).
Proof.
  induction cands as [| n rest IH]; intros acc s1 s2 H; simpl.
  - split; [reflexivity |]. intros l Hl. injection Hl as <-. exact H.
  - apply bind_rel_out with (R := aligned W1 W2 acc); [apply sim_next_system | exact H |].
    intros system s1' s2' H'.
    apply bind_rel_out with (R := aligned W1 W2 acc);
      [apply sim_check_system_availability | exact H' |].
    intros [|] s1'' s2'' H''; [| exact (IH _ _ _ H'')].
    apply bind_rel_out with (R := aligned W1 W2 acc);
      [apply sim_get_system_resources | exact H'' |].
    intros r t1 t2 Ht.
    destruct (get_available r); [| exact (IH _ _ _ Ht)].
    erewrite (bind_Ok _ _ t1) by reflexivity.
    erewrite (bind_Ok _ _ t2) by reflexivity.
    apply IH. exact (aligned_set_current_score acc system _ t1 t2 Ht).
Qed.

Lemma max_from_ext {A} (key1 key2 : A -> pyfloat) l : forall best,
  (forall x, x ∈ best :: l -> key1 x = key2 x) ->
  PyNum.max_from key1 best l = PyNum.max_from key2 best l.
Proof.
  induction l as [| x l IH]; intros best H; simpl; [reflexivity |].
  rewrite (H x), (H best)
    by (repeat first [apply list_elem_of_here | apply list_elem_of_further]).
  destruct (PyNum.gt (key2 x) (key2 best)); apply IH; intros y Hy; apply H.
  - apply list_elem_of_further. exact Hy.
  - apply elem_of_cons in Hy as [-> | Hy];
      [apply list_elem_of_here | do 2 apply list_elem_of_further; exact Hy].
Qed.

Lemma select_optimal_system_sim workload_type model_size s1 s2 :
  same_replies W1 W2 (clock s1) (clock s2) ->
  fst (select_optimal_system W1 workload_type model_size s1)
  = fst (select_optimal_system W2 workload_type model_size s2).
Proof.
  intros Hrep. unfold select_optimal_system. cbv zeta.
  assert (H0 : aligned W1 W2 [] s1 s2).
  { split; [exact Hrep |]. intros s Hs. apply elem_of_nil in Hs. destruct Hs. }
  destruct (filter_available_sim (candidates workload_type) [] s1 s2 H0) as [Hfst Hpost].
  destruct (filter_available W1 (candidates workload_type) [] s1) as [[l1 | e1] t1] eqn:E1,
           (filter_available W2 (candidates workload_type) [] s2) as [[l2 | e2] t2] eqn:E2;
    simpl in Hfst, Hpost; try discriminate Hfst.
  - injection Hfst as <-. specialize (Hpost l1 eq_refl). destruct Hpost as [_ Hsc].
    rewrite (bind_Ok _ _ _ _ _ E1), (bind_Ok _ _ _ _ _ E2).
    destruct l1 as [| s l]; [reflexivity |].
    unfold bind, max_by_current_score. simpl. f_equal.
    apply max_from_ext. intros x Hx. unfold getattr_current_score.
    rewrite (Hsc x Hx). reflexivity.
  - injection Hfst as <-.
    rewrite (bind_Raise _ _ _ _ _ E1), (bind_Raise _ _ _ _ _ E2). reflexivity.
Qed.

End Determinism.

(** C7 -- [select_optimal_system] is deterministic: two calls for the same
    workload profile whose availability and telemetry queries receive the
    same replies return the same host (or fail alike), whatever the time of
    the calls and whatever scores earlier calls left on the registry
    objects. *)
Theorem select_optimal_system_deterministic W1 W2 workload_type model_size st1 st2 :
  same_replies W1 W2 (clock st1) (clock st2) ->
  fst (select_optimal_system W1 workload_type model_size st1)
  = fst (select_optimal_system W2 workload_type model_size st2).
Proof. apply select_optimal_system_sim. Qed.

Lemma select_optimal_system_deterministic_witness :
  fst (select_optimal_system W_loaded "testing" "medium" initial_state)
  = fst (select_optimal_system W_loaded "testing" "medium" st_selected_before).
Proof.
  apply (select_optimal_system_deterministic W_loaded W_loaded "testing" "medium"
           initial_state st_selected_before).
  intros k cmd. reflexivity.
Defined.

(** ** Deployment and the fleet driver *)

Lemma deploy_dgx_spark_returns W config :
  uninterrupted W -> returns (deploy_dgx_spark W config).
Proof.
  intros HW. unfold deploy_dgx_spark.
  apply returns_bind; [apply returns_logger | intros _].
  apply returns_try.
  - apply roe_bind; [auto with orch | intros _].
    apply roe_bind; [auto with orch | intros r; apply roe_ret].
  - intros e. apply returns_bind; auto with orch.
Qed.

Lemma deploy_hpc_system_returns W system config :
  uninterrupted W -> returns (deploy_hpc_system W system config).
Proof.
  intros HW. unfold deploy_hpc_system.
  apply returns_bind; [apply returns_logger | intros _].
  apply returns_try.
  - apply roe_bind; [auto with orch | intros _].
    apply roe_bind; [auto with orch | intros r; apply roe_ret].
  - intros e. apply returns_bind; auto with orch.
Qed.

Lemma deploy_to_system_returns W system config :
  uninterrupted W -> returns (deploy_to_system W system config).
Proof.
  intros HW. unfold deploy_to_system.
  apply returns_bind; [apply returns_logger | intros _].
  destruct (String.eqb (type system) "mac").
  - intros st. destruct (deploy_mac_control_true W config st HW) as (st' & E).
    eexists _, _. exact E.
  - destruct (String.eqb (type system) "dgx-spark").
    + apply deploy_dgx_spark_returns, HW.
    + apply deploy_hpc_system_returns, HW.
Qed.

Lemma create_unified_dashboard_returns W :
  writable W -> returns (create_unified_dashboard W).
Proof.
  intros HW. unfold create_unified_dashboard.
  apply returns_bind; [apply returns_logger | intros _]. cbv zeta.
  apply returns_bind; [| intros _; apply returns_ret].
  intros st. unfold write_dashboard. rewrite HW. eexists _, _. reflexivity.
Qed.

(** The fleet loop processes every requested workload, whatever the results
    of the deployments, and records one attempt after the other. *)
Lemma deploy_workloads_trace W workload_types :
  uninterrupted W ->
  forall results st, exists st',
    deploy_workloads W workload_types results st
      = (Ok (foldl record_attempt results (fleet_trace W workload_types st)), st') /\
    (fleet_trace W workload_types st).*1.*1 = workload_types /\
    Forall (fun a => a.1.2 ∈ systems /\ name a.1.2 ∈ remote_names)
           (fleet_trace W workload_types st).
Proof.
  intros HW. induction workload_types as [| workload rest IH]; intros results st.
  - exists st. split; [reflexivity | split; [reflexivity | constructor]].
  - simpl.
    destruct (select_optimal_system_returns W workload "medium" st HW)
      as (best & st1 & Esel & Hin & Hbest).
    rewrite Esel. erewrite bind_Ok by exact Esel.
    destruct (deploy_to_system_returns W best (ConfigWorkload workload (role best)) HW st1)
      as (b & st2 & Edep).
    rewrite Edep. erewrite bind_Ok by exact Edep.
    destruct (IH (<[workload +:+ "_" +:+ name best := VBool b]> results) st2)
      as (st' & Eloop & Hws & Hnames).
    exists st'. split; [exact Eloop |]. split.
    + rewrite !fmap_cons, Hws. reflexivity.
    + constructor; [| exact Hnames]. simpl. split; [exact Hin |].
      destruct Hbest as [-> | Hname]; [compute_done |].
      exact (proj1 (Forall_forall _ _) (candidates_remote workload) _ Hname).
Qed.

(** *** Result keys *)

Lemma list_ascii_of_string_app s t :
  list_ascii_of_string (s +:+ t) = list_ascii_of_string s ++ list_ascii_of_string t.
Proof. induction s as [| c s IH]; simpl; [reflexivity | rewrite IH; reflexivity]. Qed.

Lemma string_app_inv_tail s1 s2 t : s1 +:+ t = s2 +:+ t -> s1 = s2.
Proof.
  intros H. apply (f_equal list_ascii_of_string) in H.
  rewrite !list_ascii_of_string_app in H. apply app_inv_tail in H.
  rewrite <- (string_of_list_ascii_of_string s1), H.
  apply string_of_list_ascii_of_string.
Qed.

(** The last character of a key is the last character of the host name. *)
Lemma last_char_result_key workload system :
  name system ∈ remote_names ->
  last_char (result_key workload system) = last_char (name system).
Proof.
  intros Hn. unfold last_char, result_key.
  rewrite list_ascii_of_string_app, last_app.
  unfold remote_names in Hn.
  repeat (apply elem_of_cons in Hn as [-> | Hn]; [reflexivity |]).
  apply elem_of_nil in Hn. destruct Hn.
Qed.

Lemma result_key_inj w1 s1 w2 s2 :
  name s1 ∈ remote_names -> name s2 ∈ remote_names ->
  result_key w1 s1 = result_key w2 s2 -> w1 = w2 /\ name s1 = name s2.
Proof.
  intros H1 H2 Hk.
  pose proof (f_equal last_char Hk) as Hl.
  rewrite (last_char_result_key _ _ H1), (last_char_result_key _ _ H2) in Hl.
  unfold result_key in Hk. unfold remote_names in H1, H2.
  repeat (apply elem_of_cons in H1 as [E1 | H1]);
    try (apply elem_of_nil in H1; destruct H1);
    repeat (apply elem_of_cons in H2 as [E2 | H2]);
    try (apply elem_of_nil in H2; destruct H2);
    rewrite E1, E2 in Hl, Hk |- *;
    try discriminate Hl;
    (split; [exact (string_app_inv_tail _ _ _ Hk) | reflexivity]).
Qed.

Lemma result_key_not_reserved workload system :
  name system ∈ remote_names ->
  result_key workload system <> "mac" /\ result_key workload system <> "dashboard".
Proof.
  intros Hn. pose proof (last_char_result_key workload system Hn) as Hl.
  unfold remote_names in Hn.
  repeat (apply elem_of_cons in Hn as [E | Hn]);
    try (apply elem_of_nil in Hn; destruct Hn);
    rewrite E in Hl; split; intros Hk; rewrite Hk in Hl; discriminate Hl.
Qed.

(** *** The accumulated result map *)

Lemma foldl_record_dom l : forall (results : gmap string result_value) k,
  k ∈ dom (foldl record_attempt results l) <->
  k ∈ dom results \/ exists a, a ∈ l /\ k = result_key a.1.1 a.1.2.
Proof.
  induction l as [| x l IH]; intros results k; simpl.
  - split; [intros H; left; exact H |].
    intros [H | (a & Ha & _)]; [exact H | apply elem_of_nil in Ha; destruct Ha].
  - rewrite IH. unfold record_attempt.
    rewrite dom_insert_L, elem_of_union, elem_of_singleton. split.
    + intros [[-> | H] | (a & Ha & Hk)].
      * right. exists x. split; [apply list_elem_of_here | reflexivity].
      * left. exact H.
      * right. exists a. split; [apply list_elem_of_further, Ha | exact Hk].
    + intros [H | (a & Ha & Hk)].
      * left. right. exact H.
      * apply elem_of_cons in Ha as [-> | Ha].
        -- left. left. exact Hk.
        -- right. exists a. split; [exact Ha | exact Hk].
Qed.

Lemma foldl_record_other l : forall (results : gmap string result_value) k,
  (forall a, a ∈ l -> result_key a.1.1 a.1.2 <> k) ->
  foldl record_attempt results l !! k = results !! k.
Proof.
  induction l as [| x l IH]; intros results k H; simpl; [reflexivity |].
  rewrite IH by (intros a Ha; apply H, list_elem_of_further, Ha).
  unfold record_attempt. apply lookup_insert_ne, H, list_elem_of_here.
Qed.

(** The entry of a key is the result of an attempt with that key. *)
Lemma foldl_record_lookup l : forall (results : gmap string result_value) a,
  a ∈ l ->
  exists a', a' ∈ l /\ result_key a'.1.1 a'.1.2 = result_key a.1.1 a.1.2 /\
    foldl record_attempt results l !! result_key a.1.1 a.1.2 = Some (VBool a'.2).
Proof.
  induction l as [| x l IH]; intros results a Ha; [apply elem_of_nil in Ha; destruct Ha |].
  simpl.
  destruct (decide (result_key a.1.1 a.1.2 ∈ (fun b => result_key b.1.1 b.1.2) <$> l))
    as [Hlater | Hlast].
  - apply list_elem_of_fmap in Hlater as (b & Hkb & Hb).
    destruct (IH (record_attempt results x) b Hb) as (a' & Ha' & Hk' & Hlook).
    exists a'. split; [apply list_elem_of_further, Ha' |]. split; [congruence |].
    rewrite Hkb. exact Hlook.
  - apply elem_of_cons in Ha as [-> | Ha].
    + exists x. split; [apply list_elem_of_here |]. split; [reflexivity |].
      rewrite foldl_record_other.
      * unfold record_attempt. apply lookup_insert_eq.
      * intros b Hb Hk. apply Hlast. apply list_elem_of_fmap. exists b.
        split; [symmetry; exact Hk | exact Hb].
    + exfalso. apply Hlast. apply list_elem_of_fmap. exists a. split; [reflexivity | exact Ha].
Qed.

Lemma orchestrate_full_deployment_run W workload_types st :
  uninterrupted W -> writable W ->
  exists dashboard_config st',
    orchestrate_full_deployment W workload_types st
    = (Ok (<["dashboard" := VDashboard dashboard_config]>
             (foldl record_attempt (<["mac" := VBool true]> ∅)
                    (fleet_attempts W workload_types st))), st').
Proof.
  intros HW HWr. unfold orchestrate_full_deployment.
  erewrite bind_Ok by reflexivity. cbv zeta.
  erewrite bind_Ok by reflexivity.
  destruct (deploy_to_system_mac_true W mac_studio ConfigEmpty
              (snd (logger InfoStarting st)) HW eq_refl) as (st_mac & Emac).
  erewrite bind_Ok by exact Emac.
  assert (Hst : after_control_plane W st = st_mac).
  { unfold after_control_plane. rewrite Emac. reflexivity. }
  destruct (deploy_workloads_trace W workload_types HW (<["mac" := VBool true]> ∅) st_mac)
    as (st2 & Eloop & _).
  erewrite bind_Ok by exact Eloop.
  destruct (create_unified_dashboard_returns W HWr st2) as (cfg & st3 & Edash).
  erewrite bind_Ok by exact Edash.
  exists cfg, st3. unfold fleet_attempts. rewrite Hst. reflexivity.
Qed.

Lemma fleet_attempts_facts W workload_types st :
  uninterrupted W ->
  (fleet_attempts W workload_types st).*1.*1 = workload_types /\
  Forall (fun a => a.1.2 ∈ systems /\ name a.1.2 ∈ remote_names)
         (fleet_attempts W workload_types st).
Proof.
  intros HW. unfold fleet_attempts.
  destruct (deploy_workloads_trace W workload_types HW ∅ (after_control_plane W st))
    as (_ & _ & Hws & Hall).
  split; [exact Hws | exact Hall].
Qed.

(** C6 -- For every requested list of workloads the fleet run returns a
    result map, whatever the results of the individual deployments. Every
    requested workload is resolved to a host and attempted, in order; the
    keys of the map are "mac", "dashboard" and one key per attempted
    (workload, host) pair; distinct pairs have distinct keys; the entry of a
    pair is the boolean result of an attempt of that pair. *)
Theorem orchestrate_full_deployment_entries W workload_types st :
  uninterrupted W -> writable W ->
  exists results st',
    orchestrate_full_deployment W workload_types st = (Ok results, st') /\
    (fleet_attempts W workload_types st).*1.*1 = workload_types /\
    (forall k, k ∈ dom results <->
       k = "mac" \/ k = "dashboard" \/
       exists a, a ∈ fleet_attempts W workload_types st /\ k = result_key a.1.1 a.1.2) /\
    (forall a a', a ∈ fleet_attempts W workload_types st ->
       a' ∈ fleet_attempts W workload_types st ->
       result_key a.1.1 a.1.2 = result_key a'.1.1 a'.1.2 -> a.1 = a'.1) /\
    (forall a, a ∈ fleet_attempts W workload_types st ->
       exists a', a' ∈ fleet_attempts W workload_types st /\ a'.1 = a.1 /\
         results !! result_key a.1.1 a.1.2 = Some (VBool a'.2)).
Proof.
  intros HW HWr.
  destruct (orchestrate_full_deployment_run W workload_types st HW HWr)
    as (cfg & st' & Erun).
  destruct (fleet_attempts_facts W workload_types st HW) as [Hws Hall].
  assert (Hinj : forall a a', a ∈ fleet_attempts W workload_types st ->
             a' ∈ fleet_attempts W workload_types st ->
             result_key a.1.1 a.1.2 = result_key a'.1.1 a'.1.2 -> a.1 = a'.1).
  { intros a a' Ha Ha' Hk.
    destruct (proj1 (Forall_forall _ _) Hall a Ha) as [Hs Hn].
    destruct (proj1 (Forall_forall _ _) Hall a' Ha') as [Hs' Hn'].
    destruct (result_key_inj _ _ _ _ Hn Hn' Hk) as [Hw Hname].
    pose proof (systems_name_inj _ _ Hs Hs' Hname) as Hsys.
    destruct a as [[w s] b], a' as [[w' s'] b']. simpl in *. congruence. }
  eexists _, st'. split; [exact Erun |]. split; [exact Hws |]. split; [| split].
  - intros k. rewrite dom_insert_L, elem_of_union, elem_of_singleton, foldl_record_dom.
    rewrite dom_insert_L, dom_empty_L, elem_of_union, elem_of_singleton.
    split.
    + intros [-> | [[-> | Hk] | Hk]]; [right; left; reflexivity | left; reflexivity | |].
      * apply elem_of_empty in Hk. destruct Hk.
      * right. right. exact Hk.
    + intros [-> | [-> | Hk]].
      * right. left. left. reflexivity.
      * left. reflexivity.
      * right. right. exact Hk.
  - exact Hinj.
  - intros a Ha.
    destruct (proj1 (Forall_forall _ _) Hall a Ha) as [_ Hn].
    destruct (result_key_not_reserved a.1.1 a.1.2 Hn) as [_ Hnd].
    destruct (foldl_record_lookup (fleet_attempts W workload_types st)
                (<["mac" := VBool true]> ∅) a Ha) as (a' & Ha' & Hk' & Hlook).
    exists a'. split; [exact Ha' |]. split; [exact (Hinj a' a Ha' Ha Hk') |].
    rewrite lookup_insert_ne by congruence. exact Hlook.
Qed.

Lemma writable_W_deploy_fails : writable W_deploy_fails.
Proof. intros n path. reflexivity. Qed.

Lemma uninterrupted_W_deploy_fails : uninterrupted W_deploy_fails.
Proof. intros n c e H. simpl in H. destruct c; discriminate H. Qed.

Lemma orchestrate_full_deployment_entries_witness :
  exists results st',
    orchestrate_full_deployment W_deploy_fails ["testing"; "development"] initial_state
    = (Ok results, st') /\
    (fleet_attempts W_deploy_fails ["testing"; "development"] initial_state).*1.*1
    = ["testing"; "development"] /\
    (forall k, k ∈ dom results <->
       k = "mac" \/ k = "dashboard" \/
       exists a, a ∈ fleet_attempts W_deploy_fails ["testing"; "development"] initial_state
                 /\ k = result_key a.1.1 a.1.2) /\
    (forall a a',
       a ∈ fleet_attempts W_deploy_fails ["testing"; "development"] initial_state ->
       a' ∈ fleet_attempts W_deploy_fails ["testing"; "development"] initial_state ->
       result_key a.1.1 a.1.2 = result_key a'.1.1 a'.1.2 -> a.1 = a'.1) /\
    (forall a, a ∈ fleet_attempts W_deploy_fails ["testing"; "development"] initial_state ->
       exists a',
         a' ∈ fleet_attempts W_deploy_fails ["testing"; "development"] initial_state /\
         a'.1 = a.1 /\ results !! result_key a.1.1 a.1.2 = Some (VBool a'.2)).
Proof.
  apply (orchestrate_full_deployment_entries W_deploy_fails ["testing"; "development"]
           initial_state).
  - exact uninterrupted_W_deploy_fails.
  - exact writable_W_deploy_fails.
Defined.

(** ** Exit status *)

Lemma returns_print p : returns (print p).
Proof. intros st. eexists _, _. reflexivity. Qed.

Lemma orchestrate_full_deployment_returns W workload_types :
  uninterrupted W -> writable W -> returns (orchestrate_full_deployment W workload_types).
Proof.
  intros HW HWr st.
  destruct (orchestrate_full_deployment_run W workload_types st HW HWr) as (cfg & st' & E).
  eexists _, _. exact E.
Qed.

Lemma main_returns W args :
  uninterrupted W -> writable W -> target_system args <> TargetMac ->
  returns (main W args).
Proof.
  intros HW HWr Htarget. unfold main.
  destruct (monitor_only args).
  - apply returns_bind; [apply create_unified_dashboard_returns, HWr | intros d].
    apply returns_bind; [apply returns_logger | intros _; apply returns_print].
  - apply returns_bind.
    + destruct (target_system args); try congruence; simpl String.eqb; cbv iota;
        [> apply returns_bind;
           [ intros st; eexists _, _; reflexivity
           | intros target; apply returns_bind;
             [apply deploy_to_system_returns, HW | intros b; apply returns_ret] ] .. |].
      apply returns_bind;
        [apply orchestrate_full_deployment_returns; assumption | intros r; apply returns_ret].
    + intros r. apply returns_bind; [apply returns_logger | intros _; apply returns_print].
Qed.

(** C5 -- The exit status of the driver is 0 whenever [main] runs to
    completion, whether the requested deployments succeeded or failed: with
    a writable dashboard file and a target other than the name "mac", every
    run ends with status 0. *)
Theorem main_exit_status_zero W args :
  uninterrupted W -> writable W -> target_system args <> TargetMac ->
  exit_status (run_main W args) = 0%Z.
Proof.
  intros HW HWr Htarget. unfold exit_status, run_main.
  destruct (main_returns W args HW HWr Htarget initial_state) as ([] & st' & ->).
  reflexivity.
Qed.

Lemma main_exit_status_zero_witness :
  exit_status (run_main W_deploy_fails default_args) = 0%Z.
Proof.
  apply (main_exit_status_zero W_deploy_fails default_args).
  - exact uninterrupted_W_deploy_fails.
  - exact writable_W_deploy_fails.
  - discriminate.
Defined.

(** A run whose only requested deployment failed ends with status 0. *)
Lemma main_exit_zero_after_failed_deployment :
  exit_status (run_main W_deploy_fails args_testing) = 0%Z
  /\ exists results,
       stdout (snd (run_main W_deploy_fails args_testing)) = [PResults results]
       /\ results !! "testing_dgx-spark" = Some (VBool false).
Proof.
  split; [vm_compute; reflexivity |].
  eexists. split; vm_compute; reflexivity.
Qed.

(** [--target-system mac] names no registry entry: the lookup raises. *)
Lemma main_target_mac_raises W workload_types :
  fst (run_main W {| workloads := workload_types; target_system := TargetMac;
                     monitor_only := false |}) = Raise StopIteration.
Proof. reflexivity. Qed.

(** ** The local-control entry *)

Lemma orchestrate_full_deployment_mac_entry W workload_types st :
  uninterrupted W -> writable W ->
  exists results st',
    orchestrate_full_deployment W workload_types st = (Ok results, st') /\
    results !! "mac" = Some (VBool true).
Proof.
  intros HW HWr.
  destruct (orchestrate_full_deployment_run W workload_types st HW HWr)
    as (cfg & st' & Erun).
  destruct (fleet_attempts_facts W workload_types st HW) as [_ Hall].
  eexists _, st'. split; [exact Erun |].
  rewrite lookup_insert_ne by discriminate.
  rewrite foldl_record_other; [apply lookup_insert_eq |].
  intros a Ha. destruct (proj1 (Forall_forall _ _) Hall a Ha) as [_ Hn].
  exact (proj1 (result_key_not_reserved a.1.1 a.1.2 Hn)).
Qed.

(** C9 -- Deployment to the local-control host always reports success:
    [deploy_mac_control] returns [True] whatever its setup commands do
    (exit non-zero, raise), so does [deploy_to_system] on every host of type
    "mac", and the "mac" entry of a fleet result map is [True]. *)
Theorem deploy_mac_control_always_succeeds W config st :
  uninterrupted W ->
  (exists st', deploy_mac_control W config st = (Ok true, st')) /\
  (forall system, type system = "mac" ->
     exists st', deploy_to_system W system config st = (Ok true, st')) /\
  (forall workload_types, writable W ->
     exists results st',
       orchestrate_full_deployment W workload_types st = (Ok results, st') /\
       results !! "mac" = Some (VBool true)).
Proof.
  intros HW. split; [exact (deploy_mac_control_true W config st HW) |]. split.
  - intros system Hty. exact (deploy_to_system_mac_true W system config st HW Hty).
  - intros workload_types HWr.
    exact (orchestrate_full_deployment_mac_entry W workload_types st HW HWr).
Qed.

Lemma writable_W_status1 : writable W_status1.
Proof. intros n path. reflexivity. Qed.

Lemma deploy_mac_control_always_succeeds_witness :
  (exists st', deploy_mac_control W_status1 ConfigEmpty initial_state = (Ok true, st'))
  /\ (exists st', deploy_to_system W_status1 mac_studio ConfigEmpty initial_state
                   = (Ok true, st'))
  /\ (exists results st',
        orchestrate_full_deployment W_status1 ["testing"] initial_state = (Ok results, st')
        /\ results !! "mac" = Some (VBool true)).
Proof.
  destruct (deploy_mac_control_always_succeeds W_status1 ConfigEmpty initial_state
              uninterrupted_W_status1) as (Hcontrol & Hsystem & Hfleet).
  split; [exact Hcontrol |]. split.
  - exact (Hsystem mac_studio eq_refl).
  - exact (Hfleet ["testing"] writable_W_status1).
Defined.

(** * Further properties of the orchestrator *)

(** ** Telemetry: failures of the query *)

(** X1 -- For a remote host, a telemetry query that raises an [Exception]
    (timeout, transport error) or completes with a non-zero status gives the
    snapshot [{"available": False}] after exactly one external call; the
    exception is logged as a warning, the non-zero status is not logged. *)
Theorem get_system_resources_query_failure W system st :
  type system <> "mac" ->
  (forall e,
     run_reply W (clock st) (CmdNvidiaSmi (host system)) = Raised e ->
     is_Exception e = true ->
     get_system_resources W system st
     = (Ok NotAvailable, after_call_logging (WarnResources (name system) e) st)) /\
  (forall rc out,
     run_reply W (clock st) (CmdNvidiaSmi (host system)) = Completed rc out ->
     rc <> 0%Z ->
     get_system_resources W system st = (Ok NotAvailable, tick st)).
Proof.
  intros Hty. apply String.eqb_neq in Hty.
  unfold get_system_resources. rewrite Hty.
  unfold try_except, bind, subprocess_run. split.
  - intros e Hrun He. rewrite Hrun. simpl. rewrite He. reflexivity.
  - intros rc out Hrun Hrc. rewrite Hrun. simpl.
    apply Z.eqb_neq in Hrc. rewrite Hrc. reflexivity.
Qed.

Lemma get_system_resources_query_failure_witness :
  get_system_resources W_timeout hpc_1 initial_state
  = (Ok NotAvailable, after_call_logging (WarnResources "hpc-1" TimeoutExpired) initial_state)
  /\ get_system_resources W_status1 hpc_1 initial_state = (Ok NotAvailable, tick initial_state).
Proof.
  destruct (get_system_resources_query_failure W_timeout hpc_1 initial_state) as [Hexn _];
    [discriminate |].
  destruct (get_system_resources_query_failure W_status1 hpc_1 initial_state) as [_ Hrc];
    [discriminate |].
  split.
  - apply (Hexn TimeoutExpired); reflexivity.
  - apply (Hrc 1%Z EmptyString); [reflexivity | discriminate].
Defined.

(** ** Telemetry: malformed output *)

Lemma collect_gpu_data_malformed lines : forall gpu_data,
  (exists line e, line ∈ lines /\ nonblank line = true /\ parse_gpu_line line = Raise e) ->
  exists e, collect_gpu_data lines gpu_data = Raise e.
Proof.
  induction lines as [| l rest IH]; intros gpu_data (line & e & Hin & Hnb & Hparse).
  - apply elem_of_nil in Hin. destruct Hin.
  - simpl. apply elem_of_cons in Hin as [<- | Hin].
    + unfold nonblank in Hnb. rewrite Hnb, Hparse. exists e. reflexivity.
    + destruct (Py.truthy (Py.strip l)).
      * destruct (parse_gpu_line l) as [g | e0]; [| exists e0; reflexivity].
        apply IH. exists line, e. auto.
      * apply IH. exists line, e. auto.
Qed.

(** X2 -- A telemetry output in which some non-blank line does not parse
    (wrong number of fields, a field that is no integer, a memory total of
    zero) makes the whole snapshot [{"available": False}]: the well-formed
    lines before or after it are not reported. *)
Theorem get_system_resources_malformed W system st out :
  type system <> "mac" ->
  run_reply W (clock st) (CmdNvidiaSmi (host system)) = Completed 0 out ->
  (exists line e,
     line ∈ lines_of out /\ nonblank line = true /\ parse_gpu_line line = Raise e) ->
  exists e,
    get_system_resources W system st
    = (Ok NotAvailable, after_call_logging (WarnResources (name system) e) st).
Proof.
  intros Hty Hrun Hbad. apply String.eqb_neq in Hty.
  destruct (collect_gpu_data_malformed (lines_of out) [] Hbad) as (e & Ecollect).
  pose proof (collect_gpu_data_raises _ _ _ Ecollect) as He.
  exists e. unfold get_system_resources. rewrite Hty.
  unfold try_except, bind, subprocess_run, lift. rewrite Hrun. simpl.
  unfold resources_of_stdout. fold (lines_of out). rewrite Ecollect. simpl.
  rewrite He. reflexivity.
Qed.

Lemma get_system_resources_malformed_witness :
  exists e,
    get_system_resources W_garbled hpc_3 initial_state
    = (Ok NotAvailable, after_call_logging (WarnResources "hpc-3" e) initial_state).
Proof.
  apply (get_system_resources_malformed W_garbled hpc_3 initial_state
           ("50, 100, 200" +:+ String "010"%char EmptyString +:+ "70, 100")).
  - discriminate.
  - reflexivity.
  - exists "70, 100", ValueError. split; [| split]; [| reflexivity | reflexivity].
    vm_compute. apply list_elem_of_further, list_elem_of_here.
Defined.

(** Lines the parser accepts and lines it rejects, with the exception each
    raises. *)
Lemma parse_gpu_line_examples :
  parse_gpu_line "50, 100, 200"
  = Ok {| utilization := 50; memory_used := 100; memory_total := 200;
          memory_percent := Finite (50 # 1) |}
  /\ parse_gpu_line " 50, 100, 200 "
     = Ok {| utilization := 50; memory_used := 100; memory_total := 200;
             memory_percent := Finite (50 # 1) |}
  /\ parse_gpu_line ("50" +:+ String "031"%char EmptyString +:+ ", 100, 200")
     = Raise ValueError
  /\ parse_gpu_line "50,100,200" = Raise ValueError
  /\ parse_gpu_line "50, 100" = Raise ValueError
  /\ parse_gpu_line "50, 100, 200, 300" = Raise ValueError
  /\ parse_gpu_line "50 %, 100, 200" = Raise ValueError
  /\ parse_gpu_line "50, 100, 0" = Raise ZeroDivisionError
  /\ parse_gpu_line ("50, " +:+ ten_pow_400 +:+ ", 1") = Raise OverflowError.
Proof. repeat split; vm_compute; reflexivity. Qed.

(** ** Telemetry: the reported snapshot *)

Lemma collect_gpu_data_parsed lines : forall gpu_data gpus,
  collect_gpu_data lines gpu_data = Ok gpus ->
  exists new,
    gpus = gpu_data ++ new /\
    Forall2 (fun line gpu => parse_gpu_line line = Ok gpu) (List.filter nonblank lines) new.
Proof.
  induction lines as [| l rest IH]; intros gpu_data gpus H; simpl in H.
  - injection H as <-. exists []. rewrite app_nil_r. split; [reflexivity | constructor].
  - simpl. unfold nonblank at 1. destruct (Py.truthy (Py.strip l)).
    + destruct (parse_gpu_line l) as [g | e] eqn:E; [| discriminate H].
      destruct (IH _ _ H) as (new & -> & Hall).
      exists (g :: new). rewrite <- app_assoc. split; [reflexivity |].
      constructor; [exact E | exact Hall].
    + exact (IH _ _ H).
Qed.

Lemma truediv_Ok a b q : PyFloat.truediv a b = Ok q -> b <> 0%Z.
Proof.
  unfold PyFloat.truediv. destruct (b =? 0)%Z eqn:E; [discriminate |].
  intros _. apply Z.eqb_neq. exact E.
Qed.

Lemma resources_of_stdout_Ok out r :
  resources_of_stdout out = Ok r ->
  exists gpus,
    r = GpuResources (length gpus) gpus (get_avg_utilization r)
          {| summands := memory_percent <$> gpus; divisor := length gpus |} /\
    PyFloat.truediv (PyNum.sumZ (utilization <$> gpus)) (Z.of_nat (length gpus))
    = Ok (get_avg_utilization r) /\
    gpus <> [] /\
    Forall2 (fun line gpu => parse_gpu_line line = Ok gpu)
            (List.filter nonblank (lines_of out)) gpus.
Proof.
  unfold resources_of_stdout. fold (lines_of out). intros H.
  destruct (collect_gpu_data (lines_of out) []) as [gpus | e] eqn:Ecollect; [| discriminate H].
  destruct (PyFloat.truediv _ _) as [u | e1] eqn:E1; [| discriminate H].
  injection H as <-.
  pose proof (truediv_Ok _ _ _ E1) as Hlen.
  destruct (collect_gpu_data_parsed _ _ _ Ecollect) as (new & Hnew & Hall).
  simpl in Hnew. subst new.
  exists gpus. split; [reflexivity |]. split; [exact E1 |]. split; [| exact Hall].
  intros ->. apply Hlen. reflexivity.
Qed.

Lemma get_system_resources_available W system st r st' :
  get_system_resources W system st = (Ok r, st') ->
  get_available r = true ->
  exists out,
    run_reply W (clock st) (CmdNvidiaSmi (host system)) = Completed 0 out /\
    resources_of_stdout out = Ok r /\ st' = tick st.
Proof.
  unfold get_system_resources.
  destruct (String.eqb (type system) "mac").
  - intros H Hav. injection H as <- _. discriminate Hav.
  - unfold try_except, bind, subprocess_run, lift.
    destruct (run_reply W (clock st) (CmdNvidiaSmi (host system))) as [rc out | e]; simpl.
    + destruct (rc =? 0)%Z eqn:Hrc; simpl.
      * apply Z.eqb_eq in Hrc. subst rc.
        destruct (resources_of_stdout out) as [d | e] eqn:Eres; simpl.
        -- intros H Hav. injection H as <- <-. exists out. auto.
        -- destruct (is_Exception e); simpl; intros H Hav;
             [injection H as <- _; discriminate Hav | discriminate H].
      * intros H Hav. injection H as <- _. discriminate Hav.
    + destruct (is_Exception e); simpl; intros H Hav;
        [injection H as <- _; discriminate Hav | discriminate H].
Qed.

(** X3 -- A snapshot reported as available comes from a query that
    completed with status 0 after one external call; it lists at least one
    accelerator, [gpu_count] is the number of non-blank output lines, the
    accelerators are the parses of those lines in output order, the average
    utilization is the float quotient of the sum of their utilizations by
    their number, and the memory average is taken over their memory
    percentages. *)
Theorem get_system_resources_snapshot W system st r st' :
  get_system_resources W system st = (Ok r, st') ->
  get_available r = true ->
  exists out gpus,
    run_reply W (clock st) (CmdNvidiaSmi (host system)) = Completed 0 out /\
    st' = tick st /\
    r = GpuResources (length gpus) gpus (get_avg_utilization r)
          {| summands := memory_percent <$> gpus; divisor := length gpus |} /\
    PyFloat.truediv (PyNum.sumZ (utilization <$> gpus)) (Z.of_nat (length gpus))
    = Ok (get_avg_utilization r) /\
    gpus <> [] /\
    length gpus = length (List.filter nonblank (lines_of out)) /\
    Forall2 (fun line gpu => parse_gpu_line line = Ok gpu)
            (List.filter nonblank (lines_of out)) gpus.
Proof.
  intros Hrun Hav.
  destruct (get_system_resources_available W system st r st' Hrun Hav)
    as (out & Hreply & Hres & Hst).
  destruct (resources_of_stdout_Ok out r Hres) as (gpus & Hr & Hu & Hne & Hall).
  exists out, gpus. repeat split; try assumption.
  symmetry. exact (Forall2_length _ _ _ Hall).
Qed.

Lemma get_system_resources_snapshot_witness :
  exists out gpus,
    run_reply W_even (clock initial_state) (CmdNvidiaSmi (host hpc_1)) = Completed 0 out /\
    tick initial_state = tick initial_state /\
    snapshot_half
    = GpuResources (length gpus) gpus (get_avg_utilization snapshot_half)
        {| summands := memory_percent <$> gpus; divisor := length gpus |} /\
    PyFloat.truediv (PyNum.sumZ (utilization <$> gpus)) (Z.of_nat (length gpus))
    = Ok (get_avg_utilization snapshot_half) /\
    gpus <> [] /\
    length gpus = length (List.filter nonblank (lines_of out)) /\
    Forall2 (fun line gpu => parse_gpu_line line = Ok gpu)
            (List.filter nonblank (lines_of out)) gpus.
Proof.
  apply (get_system_resources_snapshot W_even hpc_1 initial_state snapshot_half
           (tick initial_state)).
  - vm_compute. reflexivity.
  - reflexivity.
Defined.

(** The average of the utilizations 100, 0 and 0 is the float nearest to
    100/3, which is not 100/3. *)
Lemma get_system_resources_rounds_average :
  exists r st',
    get_system_resources W_thirds hpc_1 initial_state = (Ok r, st')
    /\ get_avg_utilization r = (4691249611844267 # 140737488355328)%Q
    /\ ~ (get_avg_utilization r == 100 # 3)%Q.
Proof.
  eexists _, _. split; [vm_compute; reflexivity |].
  split; [reflexivity | discriminate].
Qed.

(** An average too large for a float makes the snapshot
    [{"available": False}]. *)
Lemma get_system_resources_average_too_large :
  get_system_resources W_too_large hpc_1 initial_state
  = (Ok NotAvailable, after_call_logging (WarnResources "hpc-1" OverflowError) initial_state).
Proof. vm_compute. reflexivity. Qed.

(** ** Telemetry: range of the score *)

Lemma foldl_add_bounds l : forall a,
  Forall percentage l ->
  (a <= foldl Z.add a l <= a + 100 * Z.of_nat (length l))%Z.
Proof.
  induction l as [| x l IH]; intros a Hall.
  - simpl. lia.
  - apply Forall_cons in Hall as [Hx Hall]. unfold percentage in Hx.
    specialize (IH (a + x)%Z Hall).
    change (foldl Z.add a (x :: l)) with (foldl Z.add (a + x)%Z l).
    rewrite length_cons, Nat2Z.inj_succ. lia.
Qed.

(** The floor of the binary logarithm is a lower bound. *)
Lemma floor_log2_lower a b :
  (0 < a)%Z -> (0 < b)%Z -> (0 <= PyFloat.floor_log2 a b)%Z ->
  (b * 2 ^ PyFloat.floor_log2 a b <= a)%Z.
Proof.
  intros Ha Hb. unfold PyFloat.floor_log2.
  set (d := (Z.log2 a - Z.log2 b)%Z).
  destruct (0 <=? d)%Z eqn:Hd.
  - destruct (b * 2 ^ d <=? a)%Z eqn:Htest; intros Hfl.
    + apply Z.leb_le. exact Htest.
    + apply Z.leb_le in Hd.
      destruct (Z.log2_spec a Ha) as [Hla _]. destruct (Z.log2_spec b Hb) as [_ Hlb].
      pose proof (Z.log2_nonneg b) as Hlb0.
      assert (Hpow : (2 ^ Z.log2 a = 2 ^ Z.succ (Z.log2 b) * 2 ^ (d - 1))%Z).
      { rewrite <- Z.pow_add_r by lia. f_equal. unfold d. lia. }
      assert (Hp : (0 < 2 ^ (d - 1))%Z) by (apply Z.pow_pos_nonneg; lia).
      nia.
  - apply Z.leb_gt in Hd.
    destruct (b <=? a * 2 ^ (- d))%Z; intros Hfl; lia.
Qed.

Lemma round_pos_percentage a b :
  (0 < a)%Z -> (0 < b)%Z -> (a <= 100 * b)%Z ->
  exists q, PyFloat.round_pos a b = Some q /\ (0 <= q)%Q /\ (q <= 100)%Q.
Proof.
  intros Ha Hb Hle. unfold PyFloat.round_pos.
  set (e := Z.max (PyFloat.floor_log2 a b - 52) (-1074)).
  assert (He : (e < 0)%Z).
  { unfold e. apply Z.max_lub_lt; [| lia].
    destruct (Z_lt_le_dec (PyFloat.floor_log2 a b) 52) as [Hlt | Hge]; [lia |].
    pose proof (floor_log2_lower a b Ha Hb ltac:(lia)) as Hlow.
    assert (Hpow : (2 ^ 52 <= 2 ^ PyFloat.floor_log2 a b)%Z)
      by (apply Z.pow_le_mono_r; lia).
    assert (H52 : (200 < 2 ^ 52)%Z) by reflexivity.
    nia. }
  destruct (0 <=? e)%Z eqn:E; [apply Z.leb_le in E; lia |].
  assert (Hp : (0 < 2 ^ (- e))%Z) by (apply Z.pow_pos_nonneg; lia).
  destruct (rne_bounds (a * 2 ^ (- e)) b (100 * 2 ^ (- e)) ltac:(nia) Hb ltac:(nia))
    as [Hm0 HmN].
  eexists. split; [reflexivity |].
  rewrite !Qred_correct. unfold Qle. simpl. rewrite Z2Pos.id by exact Hp. lia.
Qed.

Lemma round_b64_percentage x :
  (0 <= x)%Q -> (x <= 100)%Q ->
  exists q, PyFloat.round_b64 x = Some q /\ (0 <= q)%Q /\ (q <= 100)%Q.
Proof.
  intros H0 H100. unfold PyFloat.round_b64. destruct x as [num den].
  unfold Qle in H0, H100. simpl in *.
  destruct num as [| a | a]; [| | lia].
  - exists 0%Q. split; [reflexivity |]. split; [apply Qle_refl | discriminate].
  - apply round_pos_percentage; lia.
Qed.

Lemma truediv_percentage a n u :
  (0 <= a <= 100 * n)%Z -> (0 < n)%Z -> PyFloat.truediv a n = Ok u ->
  (0 <= u)%Q /\ (u <= 100)%Q.
Proof.
  intros Ha Hn. unfold PyFloat.truediv.
  destruct (n =? 0)%Z eqn:E; [apply Z.eqb_eq in E; lia |].
  rewrite (Z.sgn_pos n Hn), Z.mul_1_r, (Z.abs_eq n) by lia.
  destruct (round_b64_percentage (Qmake a (Z.to_pos n))) as (q & -> & Hq).
  - unfold Qle. simpl. lia.
  - unfold Qle. simpl. rewrite Z2Pos.id by exact Hn. lia.
  - intros H. injection H as <-. exact Hq.
Qed.

(** X4 -- When every accelerator of an available snapshot reports a
    utilization between 0 and 100, the average utilization lies between 0 and
    100 and so does the score [100 - avg_utilization] that the selector
    derives from the snapshot, as an exact difference and as the finite float
    the subtraction rounds it to. *)
Theorem utilization_score_in_range W system st r st' :
  get_system_resources W system st = (Ok r, st') ->
  get_available r = true ->
  Forall (fun gpu => percentage (utilization gpu)) (get_gpus r) ->
  (0 <= get_avg_utilization r <= 100)%Q /\
  (0 <= 100 - get_avg_utilization r <= 100)%Q /\
  exists q, score_of r = Finite q /\ (0 <= q <= 100)%Q.
Proof.
  intros Hrun Hav Hall.
  destruct (get_system_resources_available W system st r st' Hrun Hav)
    as (out & _ & Hres & _).
  destruct (resources_of_stdout_Ok out r Hres) as (gpus & Hr & Hu & Hne & _).
  rewrite Hr in Hall. simpl in Hall.
  assert (Hall' : Forall percentage (utilization <$> gpus)).
  { apply Forall_fmap. exact Hall. }
  pose proof (foldl_add_bounds _ 0%Z Hall') as Hsum.
  rewrite length_fmap in Hsum.
  assert (Hpos : (0 < Z.of_nat (length gpus))%Z).
  { destruct gpus; [congruence | simpl; lia]. }
  assert (Hb : (0 <= PyNum.sumZ (utilization <$> gpus)
                <= 100 * Z.of_nat (length gpus))%Z) by (unfold PyNum.sumZ; lia).
  destruct (truediv_percentage _ _ _ Hb Hpos Hu) as [Hlo Hhi].
  assert (Hd0 : (0 <= 100 - get_avg_utilization r)%Q).
  { unfold Qminus. rewrite <- (Qplus_opp_r (get_avg_utilization r)).
    apply Qplus_le_l. exact Hhi. }
  assert (Hd100 : (100 - get_avg_utilization r <= 100)%Q).
  { unfold Qminus. rewrite <- (Qplus_0_r 100) at 2.
    apply Qplus_le_r. change 0%Q with (- 0)%Q. apply Qopp_le_compat. exact Hlo. }
  split; [split; assumption |]. split; [split; assumption |].
  unfold score_of, PyFloat.sub, PyFloat.rounded.
  destruct (round_b64_percentage (100 - get_avg_utilization r) Hd0 Hd100)
    as (q & -> & Hq0 & Hq100).
  exists q. split; [reflexivity | split; assumption].
Qed.

Lemma utilization_score_in_range_witness :
  (0 <= get_avg_utilization snapshot_half <= 100)%Q /\
  (0 <= 100 - get_avg_utilization snapshot_half <= 100)%Q /\
  exists q, score_of snapshot_half = Finite q /\ (0 <= q <= 100)%Q.
Proof.
  apply (utilization_score_in_range W_even hpc_1 initial_state snapshot_half
           (tick initial_state)).
  - vm_compute. reflexivity.
  - reflexivity.
  - repeat constructor; vm_compute; discriminate.
Defined.

(** ** Number of external calls of the probe *)

(** X5 -- The availability check of a remote host issues the ssh
    handshake only after a ping that completed with status 0: a failed ping
    costs one external call, a passed ping two. *)
Theorem check_system_availability_calls W system st :
  type system <> "mac" -> uninterrupted W ->
  clock (snd (check_system_availability W system st))
  = ((if stage_passes (run_reply W (clock st) (CmdPing (host system))) then 2 else 1)
     + clock st)%nat.
Proof.
  intros Hty HW. apply String.eqb_neq in Hty.
  unfold check_system_availability. rewrite Hty.
  unfold try_except, bind, subprocess_run.
  destruct (run_reply W (clock st) (CmdPing (host system))) as [rc out | e] eqn:Eping; simpl.
  - destruct (rc =? 0)%Z; simpl; [| reflexivity].
    destruct (run_reply W (S (clock st)) (CmdSshEcho (host system)))
      as [rc' out' | e'] eqn:Essh; simpl; [reflexivity |].
    rewrite (HW _ _ _ Essh). reflexivity.
  - rewrite (HW _ _ _ Eping). reflexivity.
Qed.

Lemma check_system_availability_calls_witness :
  clock (snd (check_system_availability W_status1 hpc_1 initial_state)) = 1%nat
  /\ clock (snd (check_system_availability W_silent hpc_1 initial_state)) = 2%nat.
Proof.
  split.
  - apply (check_system_availability_calls W_status1 hpc_1 initial_state);
      [discriminate | exact uninterrupted_W_status1].
  - apply (check_system_availability_calls W_silent hpc_1 initial_state);
      [discriminate | exact uninterrupted_W_silent].
Defined.

(** ** Remote deployment *)

(** X6 -- Deployment to a remote host (gateway or compute node) never
    raises an [Exception]: it returns [True] exactly when the file
    synchronization and then the remote command both complete with status 0.
    When the synchronization fails (non-zero status or exception) the remote
    command is not issued. *)
Theorem deploy_to_system_remote W system config st :
  type system <> "mac" -> uninterrupted W ->
  fst (deploy_to_system W system config st)
  = Ok (stage_passes (run_reply W (clock st) (sync_command system))
        && stage_passes (run_reply W (S (clock st)) (remote_command system))) /\
  clock (snd (deploy_to_system W system config st))
  = ((if stage_passes (run_reply W (clock st) (sync_command system)) then 2 else 1)
     + clock st)%nat.
Proof.
  intros Hty HW. apply String.eqb_neq in Hty.
  unfold deploy_to_system, sync_command, remote_command.
  erewrite bind_Ok by reflexivity. rewrite Hty.
  destruct (String.eqb (type system) "dgx-spark").
  - unfold deploy_dgx_spark, try_except, bind, subprocess_run_check, bind,
      subprocess_run, logger, ret, raise.
    simpl.
    destruct (run_reply W (clock st) (CmdRsync "dgx-spark.lab")) as [rc out | e] eqn:Esync;
      simpl.
    + destruct (rc =? 0)%Z; simpl; [| split; reflexivity].
      destruct (run_reply W (S (clock st)) CmdSshDeployDgx) as [rc' out' | e'] eqn:Essh;
        simpl; [split; reflexivity |].
      rewrite (HW _ _ _ Essh). split; reflexivity.
    + rewrite (HW _ _ _ Esync). split; reflexivity.
  - unfold deploy_hpc_system, try_except, bind, subprocess_run_check, bind,
      subprocess_run, logger, ret, raise.
    simpl.
    destruct (run_reply W (clock st) (CmdRsync (host system))) as [rc out | e] eqn:Esync;
      simpl.
    + destruct (rc =? 0)%Z; simpl; [| split; reflexivity].
      destruct (run_reply W (S (clock st)) (CmdSshDeployHpc (host system) (name system)))
        as [rc' out' | e'] eqn:Essh; simpl; [split; reflexivity |].
      rewrite (HW _ _ _ Essh). split; reflexivity.
    + rewrite (HW _ _ _ Esync). split; reflexivity.
Qed.

Lemma deploy_to_system_remote_witness :
  fst (deploy_to_system W_deploy_fails hpc_2 ConfigEmpty initial_state) = Ok false
  /\ clock (snd (deploy_to_system W_deploy_fails hpc_2 ConfigEmpty initial_state)) = 2%nat.
Proof.
  apply (deploy_to_system_remote W_deploy_fails hpc_2 ConfigEmpty initial_state).
  - discriminate.
  - exact uninterrupted_W_deploy_fails.
Defined.

(** ** Local-control setup *)

Lemma run_mac_commands_calls W commands :
  uninterrupted W ->
  forall st, exists st',
    run_mac_commands W commands st = (Ok tt, st') /\
    clock st' = (length commands + clock st)%nat.
Proof.
  intros HW. induction commands as [| cmd rest IH]; intros st.
  - exists st. split; reflexivity.
  - simpl.
    assert (Hstep : exists st1,
               try_except
                 (result <- subprocess_run W (CmdLocal (Py.split_ws cmd)) ;;
                  if negb (fst result =? 0)%Z then logger (WarnMacCommand cmd) else ret tt)
                 (fun e => logger (WarnMacError e)) st = (Ok tt, st1)
               /\ clock st1 = S (clock st)).
    { unfold try_except, bind, subprocess_run.
      destruct (run_reply W (clock st) (CmdLocal (Py.split_ws cmd))) as [rc out | e] eqn:E;
        simpl.
      - destruct (rc =? 0)%Z; simpl; eexists; split; reflexivity.
      - rewrite (HW _ _ _ E). eexists. split; reflexivity. }
    destruct Hstep as (st1 & Estep & Hclock).
    erewrite bind_Ok by exact Estep.
    destruct (IH st1) as (st' & Erest & Hclock').
    exists st'. split; [exact Erest |]. rewrite Hclock', Hclock. lia.
Qed.

(** X7 -- The local-control setup is best effort: its three commands are
    all run, one external call each, whatever the earlier ones did (non-zero
    status, exception), and the action returns [True]. *)
Theorem deploy_mac_control_runs_all W config st :
  uninterrupted W ->
  exists st',
    deploy_mac_control W config st = (Ok true, st') /\
    clock st' = (3 + clock st)%nat.
Proof.
  intros HW. unfold deploy_mac_control. cbv zeta.
  erewrite bind_Ok by reflexivity.
  match goal with
  | |- context [bind (run_mac_commands W ?cmds) _ ?st1] =>
      destruct (run_mac_commands_calls W cmds HW st1) as (st' & E & Hclock)
  end.
  erewrite bind_Ok by exact E. exists st'. split; [reflexivity | exact Hclock].
Qed.

Lemma deploy_mac_control_runs_all_witness :
  exists st',
    deploy_mac_control W_timeout ConfigEmpty initial_state = (Ok true, st') /\
    clock st' = (3 + clock initial_state)%nat.
Proof.
  apply (deploy_mac_control_runs_all W_timeout ConfigEmpty initial_state).
  exact uninterrupted_W_timeout.
Defined.

(** ** The selector: load, attributes, range *)

Lemma max_from_max {A} (key : A -> pyfloat) best l x :
  Forall (fun y => key y <> NaN) (best :: l) ->
  x ∈ best :: l -> PyNum.gt (key x) (key (PyNum.max_from key best l)) = false.
Proof.
  intros Hnan.
  destruct (max_from_first key l best Hnan) as (l1 & l2 & Heq & Hlt & Hle).
  rewrite Heq. intros Hx.
  apply elem_of_app in Hx as [Hx | Hx].
  - apply gt_asym. exact (proj1 (Forall_forall _ _) Hlt x Hx).
  - apply elem_of_cons in Hx as [-> | Hx]; [apply gt_irrefl |].
    exact (proj1 (Forall_forall _ _) Hle x Hx).
Qed.

(** X8 -- Scoring is monotonic: a surviving host whose score is strictly
    lower, as floats compare, than that of another surviving host of the
    same pass is never the one selected. *)
Theorem select_optimal_system_prefers_less_loaded W workload_type model_size st p p' :
  uninterrupted W ->
  p ∈ survey W (candidates workload_type) st ->
  p' ∈ survey W (candidates workload_type) st ->
  float_lt p.2 p'.2 ->
  fst (select_optimal_system W workload_type model_size st) <> Ok p.1.
Proof.
  intros HW Hp Hp' Hlt.
  destruct (select_optimal_system_scan W workload_type model_size st HW)
    as (st1 & Hall & ->).
  pose proof (survey_not_nan W (candidates workload_type) st) as Hnan.
  destruct (proj1 (Forall_forall _ _) Hall p Hp) as (_ & _ & Hkp).
  destruct (proj1 (Forall_forall _ _) Hall p' Hp') as (_ & _ & Hkp').
  assert (Hkeys : Forall (fun x => getattr_current_score st1 x <> NaN)
                    ((survey W (candidates workload_type) st).*1)).
  { apply Forall_fmap, Forall_forall. intros y Hy. simpl.
    destruct (proj1 (Forall_forall _ _) Hall y Hy) as (_ & _ & ->).
    exact (proj1 (Forall_forall _ _) Hnan y Hy). }
  apply (list_elem_of_fmap_2 fst) in Hp'.
  destruct ((survey W (candidates workload_type) st).*1) as [| s l];
    [apply elem_of_nil in Hp'; destruct Hp' |].
  cbv zeta. simpl fst. intros Hbest. injection Hbest as Hbest.
  pose proof (max_from_max (getattr_current_score st1) s l p'.1 Hkeys Hp') as Hmax.
  rewrite Hbest, Hkp, Hkp' in Hmax.
  unfold float_lt in Hlt. congruence.
Qed.

Lemma select_optimal_system_prefers_less_loaded_witness :
  fst (select_optimal_system W_loaded "batch_processing" "medium" initial_state) <> Ok hpc_1.
Proof.
  apply (select_optimal_system_prefers_less_loaded W_loaded "batch_processing" "medium"
           initial_state (hpc_1, Finite (10 # 1)) (hpc_2, Finite (90 # 1))).
  - exact (uninterrupted_W_reporting _).
  - vm_compute. apply list_elem_of_here.
  - vm_compute. apply list_elem_of_further, list_elem_of_here.
  - reflexivity.
Defined.

Lemma filter_available_patches W cands :
  uninterrupted W -> Forall registered cands ->
  forall acc st,
    current_score (snd (filter_available W cands acc st))
    = foldl patch_score (current_score st) (survey W cands st).
Proof.
  intros HW. induction cands as [| n rest IH]; intros Hreg acc st; [reflexivity |].
  apply Forall_cons in Hreg as [Hn Hreg]. specialize (IH Hreg).
  destruct (next_system_registered n st Hn) as (system & Enext & Hname & Hin).
  simpl. rewrite Enext. erewrite bind_Ok by exact Enext.
  destruct (check_system_availability_returns W system HW st) as (b & st1 & Echeck).
  pose proof (check_system_availability_keeps W system st) as Hk1.
  rewrite Echeck in Hk1 |- *. simpl in Hk1.
  erewrite bind_Ok by exact Echeck.
  destruct b; [| rewrite IH, Hk1; reflexivity].
  destruct (get_system_resources_returns W system HW st1) as (r & st2 & Eres).
  pose proof (get_system_resources_keeps W system st1) as Hk2.
  rewrite Eres in Hk2 |- *. simpl in Hk2.
  erewrite bind_Ok by exact Eres.
  destruct (get_available r); [| rewrite IH, Hk2, Hk1; reflexivity].
  erewrite bind_Ok by reflexivity.
  rewrite IH. simpl. unfold patch_score at 2. simpl. rewrite Hk2, Hk1. reflexivity.
Qed.

(** X9 -- A selection patches the [current_score] attribute of exactly the
    hosts that survived its own pass, with their scores of that pass, in
    candidate order, and leaves every other attribute as it found it: a host
    that did not survive, the fallback host included, keeps whatever score an
    earlier selection left on it. *)
Theorem select_optimal_system_patches_survivors W workload_type model_size st :
  uninterrupted W ->
  current_score (snd (select_optimal_system W workload_type model_size st))
  = foldl patch_score (current_score st) (survey W (candidates workload_type) st).
Proof.
  intros HW.
  rewrite <- (filter_available_patches W (candidates workload_type) HW
                (candidates_registered workload_type) [] st).
  destruct (filter_available_survey W (candidates workload_type) HW
              (candidates_registered workload_type) (candidates_NoDup workload_type) [] st)
    as (st1 & Eloop & _ & _).
  simpl app in Eloop. unfold select_optimal_system. cbv zeta.
  erewrite bind_Ok by exact Eloop. rewrite Eloop. simpl snd.
  destruct ((survey W (candidates workload_type) st).*1) as [| s l]; reflexivity.
Qed.

Lemma select_optimal_system_patches_survivors_witness :
  current_score (snd (select_optimal_system W_no_echo "interactive" "medium" st_selected_before))
  = foldl patch_score (current_score st_selected_before)
      (survey W_no_echo (candidates "interactive") st_selected_before).
Proof.
  apply (select_optimal_system_patches_survivors W_no_echo "interactive" "medium"
           st_selected_before).
  exact uninterrupted_W_no_echo.
Defined.

Lemma remote_not_mac system :
  system ∈ systems -> name system ∈ remote_names -> type system <> "mac".
Proof.
  unfold systems, load_system_configs, remote_names. intros Hin Hname.
  repeat (apply elem_of_cons in Hin as [-> | Hin]);
    try (apply elem_of_nil in Hin; destruct Hin);
    try discriminate.
  exfalso. simpl in Hname.
  repeat (apply elem_of_cons in Hname as [Hname | Hname]; [discriminate Hname |]).
  apply elem_of_nil in Hname. exact Hname.
Qed.

(** X10 -- Whatever the workload type, the model size and the replies of
    the fleet, the selector returns an entry of the registry, and that entry
    is one of the four remote hosts: the local-control host is never
    selected. *)
Theorem select_optimal_system_returns_remote_host W workload_type model_size st :
  uninterrupted W ->
  exists best st',
    select_optimal_system W workload_type model_size st = (Ok best, st') /\
    best ∈ systems /\ name best ∈ remote_names /\ type best <> "mac".
Proof.
  intros HW.
  destruct (select_optimal_system_returns W workload_type model_size st HW)
    as (best & st' & E & Hin & Hbest).
  assert (Hname : name best ∈ remote_names).
  { destruct Hbest as [-> | Hname]; [compute_done |].
    exact (proj1 (Forall_forall _ _) (candidates_remote workload_type) _ Hname). }
  exists best, st'. repeat split; [exact E | exact Hin | exact Hname |].
  exact (remote_not_mac best Hin Hname).
Qed.

Lemma select_optimal_system_returns_remote_host_witness :
  exists best st',
    select_optimal_system W_loaded "multi_user" "small" initial_state = (Ok best, st') /\
    best ∈ systems /\ name best ∈ remote_names /\ type best <> "mac".
Proof.
  apply (select_optimal_system_returns_remote_host W_loaded "multi_user" "small" initial_state).
  exact (uninterrupted_W_reporting _).
Defined.

(** ** The fleet driver: repeated workloads, size, dashboard failure *)

Lemma foldl_record_last l1 a l2 (results : gmap string result_value) :
  (forall b, b ∈ l2 -> result_key b.1.1 b.1.2 <> result_key a.1.1 a.1.2) ->
  foldl record_attempt results (l1 ++ a :: l2) !! result_key a.1.1 a.1.2 = Some (VBool a.2).
Proof.
  intros Hlater. rewrite foldl_app. simpl.
  rewrite foldl_record_other by exact Hlater.
  unfold record_attempt. apply lookup_insert_eq.
Qed.

(** X11 -- In a fleet run the entry of a (workload, host) pair holds the
    result of the last attempt of that pair: when a workload is requested
    more than once and resolves to the same host, the earlier results are
    overwritten. *)
Theorem orchestrate_full_deployment_last_attempt W workload_types st before a after :
  uninterrupted W -> writable W ->
  fleet_attempts W workload_types st = before ++ a :: after ->
  (forall b, b ∈ after -> b.1 <> a.1) ->
  exists results st',
    orchestrate_full_deployment W workload_types st = (Ok results, st') /\
    results !! result_key a.1.1 a.1.2 = Some (VBool a.2).
Proof.
  intros HW HWr Hsplit Hlater.
  destruct (orchestrate_full_deployment_run W workload_types st HW HWr)
    as (cfg & st' & Erun).
  destruct (fleet_attempts_facts W workload_types st HW) as [_ Hall].
  rewrite Hsplit in Erun, Hall.
  assert (Hfacts : forall b, b ∈ before ++ a :: after ->
             b.1.2 ∈ systems /\ name b.1.2 ∈ remote_names).
  { exact (proj1 (Forall_forall _ _) Hall). }
  assert (Ha : a ∈ before ++ a :: after).
  { apply elem_of_app. right. apply list_elem_of_here. }
  destruct (Hfacts a Ha) as [Hsa Hna].
  eexists _, st'. split; [exact Erun |].
  rewrite lookup_insert_ne
    by (intros Hk; exact (proj2 (result_key_not_reserved a.1.1 a.1.2 Hna) (eq_sym Hk))).
  apply foldl_record_last. intros b Hb Hk.
  assert (Hb' : b ∈ before ++ a :: after).
  { apply elem_of_app. right. apply list_elem_of_further. exact Hb. }
  destruct (Hfacts b Hb') as [Hsb Hnb].
  destruct (result_key_inj _ _ _ _ Hnb Hna Hk) as [Hw Hname].
  apply (Hlater b Hb).
  pose proof (systems_name_inj _ _ Hsb Hsa Hname) as Hsys.
  destruct a as [[wa sa] ba], b as [[wb sb] bb]. simpl in *. congruence.
Qed.

Lemma uninterrupted_W_recovering : uninterrupted W_recovering.
Proof. intros n c e H. simpl in H. destruct c; discriminate H. Qed.

Lemma orchestrate_full_deployment_last_attempt_witness :
  exists results st',
    orchestrate_full_deployment W_recovering ["testing"; "testing"] initial_state
    = (Ok results, st') /\
    results !! result_key "testing" dgx_spark = Some (VBool true).
Proof.
  apply (orchestrate_full_deployment_last_attempt W_recovering ["testing"; "testing"]
           initial_state [("testing", dgx_spark, false)] ("testing", dgx_spark, true) []).
  - exact uninterrupted_W_recovering.
  - intros n path. reflexivity.
  - vm_compute. reflexivity.
  - intros b Hb. apply elem_of_nil in Hb. destruct Hb.
Defined.

Lemma NoDup_fmap_transfer {A B C} (f : A -> B) (g : A -> C) (l : list A) :
  NoDup (g <$> l) ->
  (forall x y, x ∈ l -> y ∈ l -> f x = f y -> g x = g y) ->
  NoDup (f <$> l).
Proof.
  induction l as [| x l IH]; intros Hnd Hfg; [constructor |].
  change (NoDup (g x :: (g <$> l))) in Hnd. change (NoDup (f x :: (f <$> l))).
  apply NoDup_cons in Hnd as [Hx Hnd].
  apply NoDup_cons. split.
  - intros Hin. apply list_elem_of_fmap in Hin as (y & Hy & Hyin).
    apply Hx. apply list_elem_of_fmap. exists y. split; [| exact Hyin].
    apply Hfg; [apply list_elem_of_here | apply list_elem_of_further, Hyin | exact Hy].
  - apply IH; [exact Hnd |].
    intros a b Ha Hb. apply Hfg; apply list_elem_of_further; assumption.
Qed.

Lemma foldl_record_size l : forall (results : gmap string result_value),
  NoDup ((fun a => result_key a.1.1 a.1.2) <$> l) ->
  (forall a, a ∈ l -> results !! result_key a.1.1 a.1.2 = None) ->
  size (foldl record_attempt results l) = (size results + length l)%nat.
Proof.
  induction l as [| x l IH]; intros results Hnd Hfresh; simpl; [lia |].
  change (NoDup (result_key x.1.1 x.1.2 :: ((fun a => result_key a.1.1 a.1.2) <$> l))) in Hnd.
  apply NoDup_cons in Hnd as [Hx Hnd].
  rewrite IH.
  - unfold record_attempt.
    rewrite map_size_insert_None by (apply Hfresh, list_elem_of_here). lia.
  - exact Hnd.
  - intros a Ha. unfold record_attempt. rewrite lookup_insert_ne.
    + apply Hfresh, list_elem_of_further, Ha.
    + intros Hk. apply Hx. apply list_elem_of_fmap. exists a. split; [exact Hk | exact Ha].
Qed.

(** X12 -- When the requested workloads are pairwise distinct, the result
    map of a fleet run has exactly one entry per requested workload besides
    the "mac" and "dashboard" entries. *)
Theorem orchestrate_full_deployment_size W workload_types st :
  uninterrupted W -> writable W -> NoDup workload_types ->
  exists results st',
    orchestrate_full_deployment W workload_types st = (Ok results, st') /\
    size results = (length workload_types + 2)%nat.
Proof.
  intros HW HWr Hnd.
  destruct (orchestrate_full_deployment_run W workload_types st HW HWr)
    as (cfg & st' & Erun).
  destruct (fleet_attempts_facts W workload_types st HW) as [Hws Hall].
  set (attempts := fleet_attempts W workload_types st) in *.
  assert (Hfacts : forall b, b ∈ attempts -> name b.1.2 ∈ remote_names).
  { intros b Hb. exact (proj2 (proj1 (Forall_forall _ _) Hall b Hb)). }
  assert (Hkeys : NoDup ((fun a => result_key a.1.1 a.1.2) <$> attempts)).
  { apply (NoDup_fmap_transfer _ (fun a => a.1.1)).
    - rewrite <- Hws in Hnd. rewrite <- list_fmap_compose in Hnd. exact Hnd.
    - intros x y Hx Hy Hk.
      exact (proj1 (result_key_inj _ _ _ _ (Hfacts x Hx) (Hfacts y Hy) Hk)). }
  assert (Hlen : length attempts = length workload_types).
  { rewrite <- Hws, !length_fmap. reflexivity. }
  eexists _, st'. split; [exact Erun |].
  rewrite map_size_insert_None.
  - rewrite foldl_record_size.
    + rewrite map_size_insert_None by apply lookup_empty.
      rewrite map_size_empty, Hlen. lia.
    + exact Hkeys.
    + intros a Ha. rewrite lookup_insert_ne; [apply lookup_empty |].
      intros Hk. exact (proj1 (result_key_not_reserved a.1.1 a.1.2 (Hfacts a Ha)) (eq_sym Hk)).
  - apply not_elem_of_dom. rewrite foldl_record_dom.
    rewrite dom_insert_L, dom_empty_L, elem_of_union, elem_of_singleton.
    intros [[Hk | Hk] | (a & Ha & Hk)].
    + discriminate Hk.
    + apply elem_of_empty in Hk. exact Hk.
    + exact (proj2 (result_key_not_reserved a.1.1 a.1.2 (Hfacts a Ha)) (eq_sym Hk)).
Qed.

Lemma orchestrate_full_deployment_size_witness :
  exists results st',
    orchestrate_full_deployment W_deploy_fails ["development"; "testing"; "production"]
      initial_state = (Ok results, st') /\
    size results = (length ["development"; "testing"; "production"] + 2)%nat.
Proof.
  apply (orchestrate_full_deployment_size W_deploy_fails
           ["development"; "testing"; "production"] initial_state).
  - exact uninterrupted_W_deploy_fails.
  - exact writable_W_deploy_fails.
  - compute_done.
Defined.

(** X13 -- When the dashboard file cannot be written, the exception of
    the write leaves [orchestrate_full_deployment]: the fleet run returns no
    result map although every deployment was attempted, and the driver ends
    with a non-zero status. *)
Theorem orchestrate_full_deployment_dashboard_failure W workload_types st e :
  uninterrupted W -> unwritable W e ->
  fst (orchestrate_full_deployment W workload_types st) = Raise e /\
  length (fleet_attempts W workload_types st) = length workload_types /\
  exit_status (run_main W {| workloads := workload_types; target_system := TargetAuto;
                             monitor_only := false |}) <> 0%Z.
Proof.
  intros HW HWe.
  assert (Hrun : forall st0, fst (orchestrate_full_deployment W workload_types st0) = Raise e).
  { intros st0. unfold orchestrate_full_deployment.
    erewrite bind_Ok by reflexivity. cbv zeta.
    erewrite bind_Ok by reflexivity.
    destruct (deploy_to_system_mac_true W mac_studio ConfigEmpty
                (snd (logger InfoStarting st0)) HW eq_refl) as (st_mac & Emac).
    erewrite bind_Ok by exact Emac.
    destruct (deploy_workloads_trace W workload_types HW (<["mac" := VBool true]> ∅) st_mac)
      as (st2 & Eloop & _).
    erewrite bind_Ok by exact Eloop.
    erewrite bind_Raise; [reflexivity |].
    unfold create_unified_dashboard. erewrite bind_Ok by reflexivity. cbv zeta.
    erewrite bind_Raise; [reflexivity |].
    unfold write_dashboard. simpl. rewrite HWe. reflexivity. }
  split; [apply Hrun |]. split.
  - destruct (fleet_attempts_facts W workload_types st HW) as [Hws _].
    rewrite <- Hws at 2. rewrite !length_fmap. reflexivity.
  - unfold exit_status, run_main, main. simpl.
    specialize (Hrun initial_state).
    destruct (orchestrate_full_deployment W workload_types initial_state)
      as [[results | e0] st1] eqn:E; simpl in Hrun; [discriminate Hrun |].
    erewrite bind_Raise; [simpl; discriminate |].
    erewrite bind_Raise; [reflexivity | exact E].
Qed.

Lemma orchestrate_full_deployment_dashboard_failure_witness :
  fst (orchestrate_full_deployment W_read_only ["testing"] initial_state) = Raise OSError /\
  length (fleet_attempts W_read_only ["testing"] initial_state) = length ["testing"] /\
  exit_status (run_main W_read_only {| workloads := ["testing"]; target_system := TargetAuto;
                                       monitor_only := false |}) <> 0%Z.
Proof.
  apply (orchestrate_full_deployment_dashboard_failure W_read_only ["testing"]
           initial_state OSError).
  - intros n c e H. simpl in H. destruct c; discriminate H.
  - intros n. reflexivity.
Defined.

(** ** The command line: monitor-only and named targets *)

(** X14 -- In monitor-only mode the driver runs no command, probes no
    host and deploys nothing: its whole behaviour depends only on the
    outcome of writing the dashboard file, not on the workloads, the target
    or the replies of the fleet; when the file can be written it prints
    exactly the dashboard it wrote. *)
Theorem main_monitor_only W args st :
  monitor_only args = true ->
  (forall W' args',
     monitor_only args' = true ->
     (forall n path, write_reply W n path = write_reply W' n path) ->
     main W args st = main W' args' st) /\
  (writable W ->
   exists dashboard st',
     main W args st = (Ok tt, st') /\
     stdout st' = stdout st ++ [PDashboard dashboard] /\
     dashboard_file st' = Some dashboard /\
     clock st' = S (clock st) /\
     current_score st' = current_score st).
Proof.
  intros Hmon. unfold main. rewrite Hmon. split.
  - intros W' args' Hmon' Hsame. rewrite Hmon'.
    unfold create_unified_dashboard, write_dashboard, bind, logger. simpl.
    rewrite Hsame. reflexivity.
  - intros HWr. unfold create_unified_dashboard, write_dashboard, bind, logger, print. simpl.
    rewrite HWr. simpl. eexists _, _. repeat split.
Qed.

Lemma main_monitor_only_witness :
  main W_timeout args_monitor initial_state
  = main W_status1 {| workloads := []; target_system := TargetMac; monitor_only := true |}
      initial_state.
Proof.
  destruct (main_monitor_only W_timeout args_monitor initial_state eq_refl) as [Hsame _].
  apply Hsame; [reflexivity | intros n path; reflexivity].
Defined.

(** X15 -- With a named target the selector is not consulted. For the
    four host names the driver deploys once to the registry entry of that
    name and prints the boolean result; the choice "mac", which the parser
    accepts, is the name of no registry entry: the lookup raises
    [StopIteration] before anything is deployed, logged or printed. *)
Theorem main_named_target W args st :
  monitor_only args = false ->
  (target_system args = TargetMac -> main W args st = (Raise StopIteration, st)) /\
  (target_system args <> TargetMac -> target_system args <> TargetAuto ->
   uninterrupted W ->
   exists system b st1 st',
     system ∈ systems /\ name system = choice_string (target_system args) /\
     deploy_to_system W system (ConfigWorkloads (workloads args)) st = (Ok b, st1) /\
     main W args st = (Ok tt, st') /\
     stdout st' = stdout st1 ++ [PBool b] /\
     clock st' = clock st1).
Proof.
  intros Hmon. unfold main. rewrite Hmon. split.
  - intros ->. reflexivity.
  - intros Hmac Hauto HW.
    destruct (target_system args); try congruence; simpl String.eqb; cbv iota;
      match goal with
      | |- context [choice_string ?t] =>
          match eval vm_compute in
                (List.find (fun s => String.eqb (name s) (choice_string t)) systems) with
          | Some ?system =>
              destruct (deploy_to_system_returns W system (ConfigWorkloads (workloads args))
                          HW st) as (b & st1 & E);
              exists system, b, st1;
              eexists; split; [compute_done |]; split; [reflexivity |];
              split; [exact E |];
              unfold bind at 1;
              erewrite (bind_Ok (next_system _)) by reflexivity;
              erewrite bind_Ok by exact E;
              split; [reflexivity | split; reflexivity]
          end
      end.
Qed.

Lemma main_named_target_witness :
  main W_even {| workloads := ["testing"]; target_system := TargetMac; monitor_only := false |}
    initial_state = (Raise StopIteration, initial_state)
  /\ exists system b st1 st',
       system ∈ systems /\ name system = choice_string (target_system args_dgx_spark) /\
       deploy_to_system W_even system (ConfigWorkloads (workloads args_dgx_spark))
         initial_state = (Ok b, st1) /\
       main W_even args_dgx_spark initial_state = (Ok tt, st') /\
       stdout st' = stdout st1 ++ [PBool b] /\
       clock st' = clock st1.
Proof.
  split.
  - apply (proj1 (main_named_target W_even
             {| workloads := ["testing"]; target_system := TargetMac; monitor_only := false |}
             initial_state eq_refl)).
    reflexivity.
  - apply (proj2 (main_named_target W_even args_dgx_spark initial_state eq_refl));
      [discriminate | discriminate | exact (uninterrupted_W_reporting _)].
Defined.

(** ** The registry *)

(** X16 -- Looking a host up by name in the registry returns the entry of
    that name for every registry host (names identify hosts), and raises
    [StopIteration] for every name the registry does not hold; neither
    touches the state. *)
Theorem next_system_by_name st :
  (forall system, system ∈ systems ->
     next_system (fun s => String.eqb (name s) (name system)) st = (Ok system, st)) /\
  (forall n, n ∉ name <$> systems ->
     next_system (fun s => String.eqb (name s) n) st = (Raise StopIteration, st)).
Proof.
  split.
  - unfold systems, load_system_configs. intros system Hin.
    repeat (apply elem_of_cons in Hin as [-> | Hin]; [reflexivity |]).
    apply elem_of_nil in Hin. destruct Hin.
  - intros n Hn. unfold next_system.
    destruct (List.find (fun s => String.eqb (name s) n) systems) as [s |] eqn:E;
      [| reflexivity].
    apply List.find_some in E as [Hin Heq]. apply String.eqb_eq in Heq.
    exfalso. apply Hn. apply list_elem_of_fmap. exists s.
    split; [symmetry; exact Heq | apply list_elem_of_In; exact Hin].
Qed.

Lemma next_system_by_name_witness :
  next_system (fun s => String.eqb (name s) (name hpc_2)) initial_state
  = (Ok hpc_2, initial_state)
  /\ next_system (fun s => String.eqb (name s) "mac") initial_state
     = (Raise StopIteration, initial_state).
Proof.
  destruct (next_system_by_name initial_state) as [Hfound Hmissing].
  split.
  - apply Hfound. compute_done.
  - apply Hmissing. compute_done.
Defined.

(** ** Detection of the current host *)

(** X17 -- [detect_current_system] never raises and never touches the
    state. On Darwin it returns the local-control host; elsewhere it returns
    the gateway when [/proc/version] is readable and mentions "dgx" or
    "spark" in any letter case, and otherwise, also when the file cannot be
    read, the first compute node hpc-1. It never returns hpc-2 or hpc-3. *)
Theorem detect_current_system_cases P st :
  detect_current_system P st
  = (Ok (if String.eqb (platform_system P) "Darwin" then mac_studio
         else if mentions_gateway P then dgx_spark else hpc_1), st).
Proof.
  unfold detect_current_system, mentions_gateway.
  destruct (String.eqb (platform_system P) "Darwin"); [reflexivity |].
  unfold try_except_bare, bind, lift.
  destruct (proc_version P) as [text | e]; [| reflexivity].
  destruct (PyText.contains "dgx" (PyText.lower text)
            || PyText.contains "spark" (PyText.lower text)); reflexivity.
Qed.

Lemma prefix_app sub post : String.prefix sub (sub +:+ post) = true.
Proof.
  induction sub as [| c sub IH]; simpl; [destruct post; reflexivity |].
  destruct (ascii_dec c c) as [_ | Hne]; [exact IH | congruence].
Qed.

Lemma contains_unfold sub s :
  PyText.contains sub s
  = String.prefix sub s
    || match s with EmptyString => false | String _ s' => PyText.contains sub s' end.
Proof. destruct s; reflexivity. Qed.

Lemma contains_app sub pre post : PyText.contains sub (pre +:+ sub +:+ post) = true.
Proof.
  induction pre as [| c pre IH].
  - change (EmptyString +:+ sub +:+ post) with (sub +:+ post).
    rewrite contains_unfold, prefix_app. reflexivity.
  - change (String c pre +:+ sub +:+ post) with (String c (pre +:+ sub +:+ post)).
    simpl PyText.contains. rewrite IH. apply orb_true_r.
Qed.

Lemma lower_app s t : PyText.lower (s +:+ t) = PyText.lower s +:+ PyText.lower t.
Proof. induction s as [| c s IH]; simpl; [reflexivity | rewrite IH; reflexivity]. Qed.

(** X18 -- Off Darwin, the gateway is detected wherever the word "dgx" or
    "spark" occurs in [/proc/version] and in whatever letter case it is
    written. *)
Theorem detect_current_system_gateway_any_case P st pre word post :
  platform_system P <> "Darwin" ->
  proc_version P = Ok (pre +:+ word +:+ post) ->
  PyText.lower word = "dgx" \/ PyText.lower word = "spark" ->
  detect_current_system P st = (Ok dgx_spark, st).
Proof.
  intros Hsys Hread Hword. apply String.eqb_neq in Hsys.
  unfold detect_current_system. rewrite Hsys.
  unfold try_except_bare, bind, lift. rewrite Hread, !lower_app.
  destruct Hword as [-> | ->]; rewrite contains_app; [| rewrite orb_true_r]; reflexivity.
Qed.

Lemma detect_current_system_gateway_any_case_witness :
  detect_current_system P_gateway initial_state = (Ok dgx_spark, initial_state).
Proof.
  apply (detect_current_system_gateway_any_case P_gateway initial_state
           "Linux version 6.8.0 (NVIDIA " "DGX" " OS) #1 SMP").
  - discriminate.
  - reflexivity.
  - left. reflexivity.
Defined.
